(** * Day One to Markdown: a shallow embedding of [src/main.js]

    The conversion pipeline of the web application (locating
    [Journal.json] in an archive, parsing it, sorting the entries,
    resolving each entry's text and rendering the markdown document) is
    embedded as Rocq functions, and the properties stated about it in
    the specification are proved or refuted on that embedding.

    JavaScript strings are sequences of UTF-16 code units; a code unit
    is an [N].  Values are the values [JSON.parse] can build, plus
    [undefined].  Exceptions are explicit: a function that can throw
    returns a [result]. *)

From Stdlib Require Import List NArith ZArith Bool Ascii String Lia DecimalString.
From Stdlib Require Import Permutation Sorted.
Import ListNotations.

Local Open Scope Z_scope.

Set Warnings "-register-all".

(** ** Strings *)

Definition jstring := list N.

(** The code units of an ASCII literal. *)
Definition js (s : string) : jstring :=
  map N_of_ascii (list_ascii_of_string s).

Definition jstring_eqb (a b : jstring) : bool :=
  if list_eq_dec N.eq_dec a b then true else false.

(** [WhiteSpace] and [LineTerminator] of ECMAScript, which is what
    [String.prototype.trim] strips. *)
Definition is_white_space (c : N) : bool :=
  (N.eqb c 9 || N.eqb c 10 || N.eqb c 11 || N.eqb c 12 || N.eqb c 13
   || N.eqb c 32 || N.eqb c 160 || N.eqb c 5760
   || (N.leb 8192 c && N.leb c 8202)
   || N.eqb c 8232 || N.eqb c 8233 || N.eqb c 8239 || N.eqb c 8287
   || N.eqb c 12288 || N.eqb c 65279)%bool.

Fixpoint trimStart (s : jstring) : jstring :=
  match s with
  | [] => []
  | c :: r => if is_white_space c then trimStart r else s
  end.

Fixpoint trimEnd (s : jstring) : jstring :=
  match s with
  | [] => []
  | c :: r =>
      match trimEnd r with
      | [] => if is_white_space c then [] else [c]
      | r' => c :: r'
      end
  end.

(** [s.trim()] *)
Definition trim (s : jstring) : jstring := trimEnd (trimStart s).

(** [s.toLowerCase()].  Only [A]..[Z] are mapped.  The program compares
    the result with [endsWith] against ".json", ".zip" and
    "journal.json" only; the Unicode mappings of code units outside
    ASCII produce none of the letters of these suffixes in a position
    where they could complete a match (U+0130 gives "i" followed by
    U+0307, U+212A gives "k"), so the tests agree with the host's. *)
Definition lower_unit (c : N) : N :=
  if (N.leb 65 c && N.leb c 90)%bool then (c + 32)%N else c.

Definition toLowerCase (s : jstring) : jstring := map lower_unit s.

Fixpoint startsWith (s p : jstring) : bool :=
  match p, s with
  | [], _ => true
  | _ :: _, [] => false
  | a :: p', b :: s' => (N.eqb a b && startsWith s' p')%bool
  end.

(** [s.endsWith(suffix)] *)
Definition endsWith (s suffix : jstring) : bool :=
  startsWith (rev s) (rev suffix).

(** [parts.join(sep)] on an array of strings. *)
Fixpoint join (sep : jstring) (parts : list jstring) : jstring :=
  match parts with
  | [] => []
  | [p] => p
  | p :: rest => p ++ sep ++ join sep rest
  end.

(** ** [cleanupText]

    [text.replace(/\\([.-])/g, "$1")]: one scan from left to right; at
    each position a backslash (92) followed by a period (46) or a
    hyphen (45) is replaced by that period or hyphen and the scan
    resumes after the match. *)

Definition is_backslash (c : N) : bool := N.eqb c 92.
Definition is_dot_or_hyphen (c : N) : bool := (N.eqb c 46 || N.eqb c 45)%bool.

Fixpoint cleanupText (text : jstring) : jstring :=
  match text with
  | [] => []
  | c :: rest =>
      match rest with
      | d :: rest' =>
          if (is_backslash c && is_dot_or_hyphen d)%bool
          then d :: cleanupText rest'
          else c :: cleanupText rest
      | [] => [c]
      end
  end.

(** [escaped s]: the pattern [/\\([.-])/] occurs in [s]. *)
Fixpoint escaped (s : jstring) : bool :=
  match s with
  | [] => false
  | c :: rest =>
      match rest with
      | d :: _ => ((is_backslash c && is_dot_or_hyphen d) || escaped rest)%bool
      | [] => false
      end
  end.

(** [double_escaped s]: somewhere in [s] two backslashes are followed
    by a period or a hyphen. *)
Fixpoint double_escaped (s : jstring) : bool :=
  match s with
  | [] => false
  | c :: rest =>
      match rest with
      | d :: e :: _ =>
          ((is_backslash c && is_backslash d && is_dot_or_hyphen e)
           || double_escaped rest)%bool
      | _ => false
      end
  end.

(** ** Values, exceptions and the host

    [value] is what [JSON.parse] can return, and [undefined].  A number
    is kept as the text of its JSON literal; what that number does
    under [ToBoolean], [ToString] and [TimeClip] is floating point and
    belongs to the host.  An object is its list of properties in source
    order; a key written twice has the value written last. *)

Inductive value : Type :=
| VUndefined
| VNull
| VBool (b : bool)
| VNum (literal : jstring)
| VStr (s : jstring)
| VArr (items : list value)
| VObj (props : list (jstring * value)).

Inductive exn : Type :=
| Error (message : jstring)   (* [new Error(message)] thrown by the program *)
| TypeError                   (* property of null, or a failed conversion to primitive *)
| SyntaxError                 (* [JSON.parse] *)
| ArchiveError.               (* rejection of [JSZip.loadAsync] *)

Inductive result (A : Type) : Type :=
| Ok (a : A)
| Throw (e : exn).

Arguments Ok {A} a.
Arguments Throw {A} e.

Definition bind {A B : Type} (r : result A) (k : A -> result B) : result B :=
  match r with
  | Ok a => k a
  | Throw e => Throw e
  end.

Notation "x <- r ;; k" := (bind r (fun x => k))
  (at level 61, r at next level, right associativity).

(** [arr.map(f)] with a callback that can throw. *)
Section MapM.

Context {A B : Type}.
Variable f : A -> result B.

Fixpoint mapM (l : list A) : result (list B) :=
  match l with
  | [] => Ok []
  | a :: l' => b <- f a ;; bs <- mapM l' ;; Ok (b :: bs)
  end.

End MapM.

(** What the program leaves to the JavaScript engine.  A time value is
    an integer number of milliseconds since the epoch; [None] stands
    for [NaN]. *)
Class Host : Type := {
  (** [ToBoolean] of the number a JSON literal denotes *)
  Number_ToBoolean : jstring -> bool;
  (** [Number.prototype.toString] of that number *)
  Number_toString : jstring -> jstring;
  (** [TimeClip] of that number *)
  Number_TimeClip : jstring -> option Z;
  (** [Date.parse] on a string that is not in the part of the Date Time
      String Format modelled by [iso_parse]: implementation-defined *)
  Date_parse_other : jstring -> option Z;
  (** the [message] of an exception the host throws *)
  host_message : exn -> jstring
}.

(** A host that recognises no date outside [iso_parse] and reads a
    number literal as an integer; used to run the program on concrete
    inputs. *)
Definition digit (c : N) : option Z :=
  if (N.leb 48 c && N.leb c 57)%bool then Some (Z.of_N c - 48) else None.

Fixpoint digits_value (acc : Z) (s : jstring) : option Z :=
  match s with
  | [] => Some acc
  | c :: r =>
      match digit c with
      | Some d => digits_value (10 * acc + d) r
      | None => None
      end
  end.

Definition literal_integer (lit : jstring) : option Z :=
  match lit with
  | 45%N :: (_ :: _) as r => option_map Z.opp (digits_value 0 r)
  | _ :: _ => digits_value 0 lit
  | [] => None
  end.

Definition reference_host : Host := {|
  Number_ToBoolean lit :=
    match literal_integer lit with Some 0 => false | _ => true end;
  Number_toString lit := lit;
  Number_TimeClip lit :=
    match literal_integer lit with
    | Some t => if Z.abs t <=? 8640000000000000 then Some t else None
    | None => None
    end;
  Date_parse_other _ := None;
  host_message _ := js "host error"
|}.

(** *** Property access *)

(** The own property [k] of an object; the last binding of a key wins. *)
Definition lookup (k : jstring) (props : list (jstring * value)) : value :=
  fold_left (fun acc kv => if jstring_eqb (fst kv) k then snd kv else acc)
            props VUndefined.

(** [v[k]] for [v] neither null nor undefined and [k] one of the names
    the program reads ("entries", "creationDate", "modifiedDate",
    "text", "richText", "contents").  No prototype carries them, except
    that an array has the method [entries]; the program only asks
    [Array.isArray] of that one, which is false for a function as it is
    for [undefined]. *)
Definition get (v : value) (k : jstring) : value :=
  match v with
  | VObj props => lookup k props
  | _ => VUndefined
  end.

Definition is_nullish (v : value) : bool :=
  match v with
  | VUndefined | VNull => true
  | _ => false
  end.

(** [v.k]: throws on null and undefined. *)
Definition member (v : value) (k : jstring) : result value :=
  if is_nullish v then Throw TypeError else Ok (get v k).

(** [v?.k] *)
Definition opt_member (v : value) (k : jstring) : value :=
  if is_nullish v then VUndefined else get v k.

Definition has_own (k : jstring) (props : list (jstring * value)) : bool :=
  existsb (fun kv => jstring_eqb (fst kv) k) props.

(** ** Dates

    Day numbers and time values as ECMAScript defines them
    (section "Date Objects": [Day], [DayFromYear], [YearFromTime],
    [MonthFromTime], [DateFromTime], [MakeDay], [MakeTime]). *)

Definition msPerDay : Z := 86400000.

Definition DayFromYear (y : Z) : Z :=
  365 * (y - 1970) + (y - 1969) / 4 - (y - 1901) / 100 + (y - 1601) / 400.

Definition InLeapYear (y : Z) : Z :=
  if ((y mod 4 =? 0) && negb (y mod 100 =? 0) || (y mod 400 =? 0))%bool
  then 1 else 0.

(** The year of a day number: the largest [y] with [DayFromYear y <= day].
    The mean length of a year is 146097/400 days, which gives the year
    up to one; the two comparisons settle it. *)
Definition YearFromDay (day : Z) : Z :=
  let y := 1970 + (400 * day) / 146097 in
  if day <? DayFromYear y then y - 1
  else if DayFromYear (y + 1) <=? day then y + 1
  else y.

(** Month (0 to 11) and day of the month (1 to 31) of a day within a
    year, by the table of [MonthFromTime] and [DateFromTime]. *)
Definition MonthDate (d leap : Z) : Z * Z :=
  if d <? 31 then (0, d + 1)
  else if d <? 59 + leap then (1, d - 30)
  else if d <? 90 + leap then (2, d - 58 - leap)
  else if d <? 120 + leap then (3, d - 89 - leap)
  else if d <? 151 + leap then (4, d - 119 - leap)
  else if d <? 181 + leap then (5, d - 150 - leap)
  else if d <? 212 + leap then (6, d - 180 - leap)
  else if d <? 243 + leap then (7, d - 211 - leap)
  else if d <? 273 + leap then (8, d - 242 - leap)
  else if d <? 304 + leap then (9, d - 272 - leap)
  else if d <? 334 + leap then (10, d - 303 - leap)
  else (11, d - 333 - leap).

Definition getUTCFullYear (t : Z) : Z := YearFromDay (t / msPerDay).

Definition DayWithinYear (t : Z) : Z :=
  t / msPerDay - DayFromYear (getUTCFullYear t).

Definition getUTCMonth (t : Z) : Z :=
  fst (MonthDate (DayWithinYear t) (InLeapYear (getUTCFullYear t))).

Definition getUTCDate (t : Z) : Z :=
  snd (MonthDate (DayWithinYear t) (InLeapYear (getUTCFullYear t))).

Definition getUTCHours (t : Z) : Z := (t / 3600000) mod 24.
Definition getUTCMinutes (t : Z) : Z := (t / 60000) mod 60.
Definition getUTCSeconds (t : Z) : Z := (t / 1000) mod 60.

(** Days before month [m] (1 to 12) in a year. *)
Definition days_before_month (m leap : Z) : Z :=
  match m with
  | 1 => 0
  | 2 => 31
  | 3 => 59 + leap
  | 4 => 90 + leap
  | 5 => 120 + leap
  | 6 => 151 + leap
  | 7 => 181 + leap
  | 8 => 212 + leap
  | 9 => 243 + leap
  | 10 => 273 + leap
  | 11 => 304 + leap
  | _ => 334 + leap
  end.

Definition days_in_month (m leap : Z) : Z :=
  match m with
  | 2 => 28 + leap
  | 4 | 6 | 9 | 11 => 30
  | _ => 31
  end.

Definition num2 (a b : N) : option Z :=
  match digit a, digit b with
  | Some x, Some y => Some (10 * x + y)
  | _, _ => None
  end.

Definition num3 (a b c : N) : option Z :=
  match digit a, num2 b c with
  | Some x, Some y => Some (100 * x + y)
  | _, _ => None
  end.

Definition num4 (a b c d : N) : option Z :=
  match num2 a b, num2 c d with
  | Some x, Some y => Some (100 * x + y)
  | _, _ => None
  end.

(** The time of day of [THH:mm:ssZ] or [THH:mm:ss.sssZ], in
    milliseconds; [""] is the date-only form, midnight UTC. *)
Definition iso_time (s : jstring) : option Z :=
  match s with
  | [] => Some 0
  | 84%N :: h1 :: h2 :: 58%N :: m1 :: m2 :: 58%N :: s1 :: s2 :: tail =>
      match num2 h1 h2, num2 m1 m2, num2 s1 s2 with
      | Some h, Some mi, Some sec =>
          if ((h <=? 23) && (mi <=? 59) && (sec <=? 59))%bool then
            match tail with
            | [90%N] => Some (h * 3600000 + mi * 60000 + sec * 1000)
            | [46%N; f1; f2; f3; 90%N] =>
                match num3 f1 f2 f3 with
                | Some ms => Some (h * 3600000 + mi * 60000 + sec * 1000 + ms)
                | None => None
                end
            | _ => None
            end
          else None
      | _, _, _ => None
      end
  | _ => None
  end.

(** The forms [YYYY-MM-DD], [YYYY-MM-DDTHH:mm:ssZ] and
    [YYYY-MM-DDTHH:mm:ss.sssZ] of the Date Time String Format with
    legal field values, on which every host agrees. *)
Definition iso_parse (s : jstring) : option Z :=
  match s with
  | y1 :: y2 :: y3 :: y4 :: 45%N :: m1 :: m2 :: 45%N :: d1 :: d2 :: rest =>
      match num4 y1 y2 y3 y4, num2 m1 m2, num2 d1 d2, iso_time rest with
      | Some y, Some m, Some d, Some ms =>
          if ((1 <=? m) && (m <=? 12) && (1 <=? d)
              && (d <=? days_in_month m (InLeapYear y)))%bool
          then Some ((DayFromYear y + days_before_month m (InLeapYear y) + d - 1)
                     * msPerDay + ms)
          else None
      | _, _, _, _ => None
      end
  | _ => None
  end.

(** [String(n)] for an integer [n]. *)
Definition Z_to_jstring (n : Z) : jstring :=
  match n with
  | Z0 => js "0"
  | Zpos p => js (DecimalString.NilEmpty.string_of_uint (Pos.to_uint p))
  | Zneg p => 45%N :: js (DecimalString.NilEmpty.string_of_uint (Pos.to_uint p))
  end.

(** [String(value).padStart(2, "0")] *)
Definition pad (n : Z) : jstring :=
  let s := Z_to_jstring n in
  match s with
  | [] => js "00"
  | [c] => 48%N :: s
  | _ => s
  end.

(** ** [JSON.parse]

    The JSON grammar of ECMA-404, as [JSON.parse] accepts it: a scanner
    from code units to tokens, then a stack machine from tokens to a
    [value].  [None] is the [SyntaxError]. *)

Inductive token : Type :=
| TLBrace | TRBrace | TLBracket | TRBracket | TColon | TComma
| TString (s : jstring)
| TNumber (literal : jstring)
| TTrue | TFalse | TNull.

(** A JSON number: an optional minus sign; a zero, or a digit from 1
    to 9 and any digits; optionally a point and one digit at least;
    optionally e or E, an optional sign and one digit at least. *)
Definition is_digit (c : N) : bool := (N.leb 48 c && N.leb c 57)%bool.

Fixpoint skip_digits (s : jstring) : jstring :=
  match s with
  | c :: r => if is_digit c then skip_digits r else s
  | [] => []
  end.

(** One digit at least, then the rest. *)
Definition digits1 (s : jstring) : option jstring :=
  match s with
  | c :: r => if is_digit c then Some (skip_digits r) else None
  | [] => None
  end.

Definition number_exponent (s : jstring) : bool :=
  match s with
  | [] => true
  | e :: r =>
      if (N.eqb e 101 || N.eqb e 69)%bool then
        let r' := match r with
                  | sg :: r'' => if (N.eqb sg 43 || N.eqb sg 45)%bool then r'' else r
                  | [] => r
                  end in
        match digits1 r' with
        | Some [] => true
        | _ => false
        end
      else false
  end.

Definition number_fraction (s : jstring) : bool :=
  match s with
  | 46%N :: r =>
      match digits1 r with
      | Some r' => number_exponent r'
      | None => false
      end
  | _ => number_exponent s
  end.

Definition number_integer (s : jstring) : bool :=
  match s with
  | 48%N :: r => number_fraction r
  | c :: r => if is_digit c then number_fraction (skip_digits r) else false
  | [] => false
  end.

Definition is_json_number (s : jstring) : bool :=
  match s with
  | 45%N :: r => number_integer r
  | _ => number_integer s
  end.

Definition hex_digit (c : N) : option N :=
  if (N.leb 48 c && N.leb c 57)%bool then Some (c - 48)%N
  else if (N.leb 65 c && N.leb c 70)%bool then Some (c - 55)%N
  else if (N.leb 97 c && N.leb c 102)%bool then Some (c - 87)%N
  else None.

(** The scanner's state: between tokens, inside a string (the code
    units read so far, last first), after a backslash, inside a
    [\uXXXX] escape (digits still to read, value so far), inside a
    number or inside a literal name. *)
Inductive scan_state : Type :=
| SBetween
| SInString (acc : jstring)
| SEscape (acc : jstring)
| SUnicode (acc : jstring) (todo : nat) (v : N)
| SInNumber (acc : jstring)
| SInName (acc : jstring).

Definition is_json_space (c : N) : bool :=
  (N.eqb c 9 || N.eqb c 10 || N.eqb c 13 || N.eqb c 32)%bool.

Definition is_number_unit (c : N) : bool :=
  (is_digit c || N.eqb c 45 || N.eqb c 43 || N.eqb c 46
   || N.eqb c 101 || N.eqb c 69)%bool.

Definition is_name_unit (c : N) : bool := (N.leb 97 c && N.leb c 122)%bool.

Definition number_token (acc : jstring) : option token :=
  let lit := rev acc in
  if is_json_number lit then Some (TNumber lit) else None.

Definition name_token (acc : jstring) : option token :=
  let w := rev acc in
  if jstring_eqb w (js "true") then Some TTrue
  else if jstring_eqb w (js "false") then Some TFalse
  else if jstring_eqb w (js "null") then Some TNull
  else None.

(** A code unit read between tokens: the state it leads to and the
    token it completes, if any. *)
Definition scan_between (c : N) : option (scan_state * list token) :=
  if is_json_space c then Some (SBetween, [])
  else if N.eqb c 123 then Some (SBetween, [TLBrace])
  else if N.eqb c 125 then Some (SBetween, [TRBrace])
  else if N.eqb c 91 then Some (SBetween, [TLBracket])
  else if N.eqb c 93 then Some (SBetween, [TRBracket])
  else if N.eqb c 58 then Some (SBetween, [TColon])
  else if N.eqb c 44 then Some (SBetween, [TComma])
  else if N.eqb c 34 then Some (SInString [], [])
  else if (is_digit c || N.eqb c 45)%bool then Some (SInNumber [c], [])
  else if is_name_unit c then Some (SInName [c], [])
  else None.

Definition escape_unit (c : N) : option N :=
  if (N.eqb c 34 || N.eqb c 92 || N.eqb c 47)%bool then Some c
  else if N.eqb c 98 then Some 8%N
  else if N.eqb c 102 then Some 12%N
  else if N.eqb c 110 then Some 10%N
  else if N.eqb c 114 then Some 13%N
  else if N.eqb c 116 then Some 9%N
  else None.

Definition scan_step (st : scan_state) (c : N) : option (scan_state * list token) :=
  match st with
  | SBetween => scan_between c
  | SInString acc =>
      if N.eqb c 34 then Some (SBetween, [TString (rev acc)])
      else if N.eqb c 92 then Some (SEscape acc, [])
      else if N.ltb c 32 then None
      else Some (SInString (c :: acc), [])
  | SEscape acc =>
      if N.eqb c 117 then Some (SUnicode acc 4 0%N, [])
      else match escape_unit c with
           | Some u => Some (SInString (u :: acc), [])
           | None => None
           end
  | SUnicode acc todo v =>
      match hex_digit c with
      | Some d =>
          let v' := (16 * v + d)%N in
          match todo with
          | S (S n) => Some (SUnicode acc (S n) v', [])
          | _ => Some (SInString (v' :: acc), [])
          end
      | None => None
      end
  | SInNumber acc =>
      if is_number_unit c then Some (SInNumber (c :: acc), [])
      else match number_token acc, scan_between c with
           | Some t, Some (st', ts) => Some (st', t :: ts)
           | _, _ => None
           end
  | SInName acc =>
      if is_name_unit c then Some (SInName (c :: acc), [])
      else match name_token acc, scan_between c with
           | Some t, Some (st', ts) => Some (st', t :: ts)
           | _, _ => None
           end
  end.

Fixpoint scan (st : scan_state) (s : jstring) : option (list token) :=
  match s with
  | [] =>
      match st with
      | SBetween => Some []
      | SInNumber acc => option_map (fun t => [t]) (number_token acc)
      | SInName acc => option_map (fun t => [t]) (name_token acc)
      | _ => None
      end
  | c :: r =>
      match scan_step st c with
      | Some (st', ts) => option_map (app ts) (scan st' r)
      | None => None
      end
  end.

(** The enclosing array or object of the value being read. *)
Inductive frame : Type :=
| FArray (acc : list value)
| FObject (acc : list (jstring * value)) (key : jstring).

Inductive parse_state : Type :=
| PValue (stack : list frame)          (* a value is expected *)
| PArrayOpen (stack : list frame)      (* after "[" *)
| PArrayNext (acc : list value) (stack : list frame)   (* after an element *)
| PObjectOpen (stack : list frame)     (* after "{" *)
| PObjectKey (acc : list (jstring * value)) (stack : list frame)  (* after "," *)
| PObjectColon (acc : list (jstring * value)) (key : jstring) (stack : list frame)
| PObjectNext (acc : list (jstring * value)) (stack : list frame) (* after a member *)
| PDone (v : value).

(** A value is complete: hand it to the enclosing frame. *)
Definition complete (v : value) (stack : list frame) : parse_state :=
  match stack with
  | [] => PDone v
  | FArray acc :: stack' => PArrayNext (v :: acc) stack'
  | FObject acc key :: stack' => PObjectNext ((key, v) :: acc) stack'
  end.

Definition parse_value (t : token) (stack : list frame) : option parse_state :=
  match t with
  | TNull => Some (complete VNull stack)
  | TTrue => Some (complete (VBool true) stack)
  | TFalse => Some (complete (VBool false) stack)
  | TNumber lit => Some (complete (VNum lit) stack)
  | TString s => Some (complete (VStr s) stack)
  | TLBracket => Some (PArrayOpen stack)
  | TLBrace => Some (PObjectOpen stack)
  | _ => None
  end.

Definition parse_step (st : parse_state) (t : token) : option parse_state :=
  match st, t with
  | PValue stack, _ => parse_value t stack
  | PArrayOpen stack, TRBracket => Some (complete (VArr []) stack)
  | PArrayOpen stack, _ => parse_value t (FArray [] :: stack)
  | PArrayNext acc stack, TComma => Some (PValue (FArray acc :: stack))
  | PArrayNext acc stack, TRBracket => Some (complete (VArr (rev acc)) stack)
  | PObjectOpen stack, TRBrace => Some (complete (VObj []) stack)
  | PObjectOpen stack, TString k => Some (PObjectColon [] k stack)
  | PObjectKey acc stack, TString k => Some (PObjectColon acc k stack)
  | PObjectColon acc k stack, TColon => Some (PValue (FObject acc k :: stack))
  | PObjectNext acc stack, TComma => Some (PObjectKey acc stack)
  | PObjectNext acc stack, TRBrace => Some (complete (VObj (rev acc)) stack)
  | _, _ => None
  end.

Fixpoint parse_tokens (st : parse_state) (ts : list token) : option value :=
  match ts with
  | [] => match st with PDone v => Some v | _ => None end
  | t :: ts' =>
      match parse_step st t with
      | Some st' => parse_tokens st' ts'
      | None => None
      end
  end.

Definition JSON_parse (text : jstring) : result value :=
  match scan SBetween text with
  | Some ts =>
      match parse_tokens (PValue []) ts with
      | Some v => Ok v
      | None => Throw SyntaxError
      end
  | None => Throw SyntaxError
  end.

(** A literal written with apostrophes where the text has quotation
    marks. *)
Definition jsq (s : string) : jstring :=
  map (fun c => if N.eqb c 39 then 34%N else c) (js s).

(** ** [Array.prototype.sort]

    The sort is stable (ECMAScript 2019) and calls the comparison
    function on pairs of elements; an exception of the comparison
    function ends it.  Which pairs are compared is up to the engine:
    with a comparison function that orders the elements by a key the
    result is the same for every engine, and so is the outcome with
    the comparison functions of this program, which throw on an element
    whatever the other one is (no call is made on fewer than two
    elements, and every element of two or more is compared once at
    least).  [insert x l] puts [x] before the first element it does
    not follow: [x] comes from the left of the elements of [l] in the
    array. *)

Section Sort.

Context {A : Type}.
Variable comparefn : A -> A -> result Z.

Fixpoint insert (x : A) (l : list A) : result (list A) :=
  match l with
  | [] => Ok [x]
  | y :: l' =>
      c <- comparefn x y ;;
      if c <=? 0 then Ok (x :: l)
      else (r <- insert x l' ;; Ok (y :: r))
  end.

Fixpoint Array_sort (l : list A) : result (list A) :=
  match l with
  | [] => Ok []
  | x :: l' => s <- Array_sort l' ;; insert x s
  end.

End Sort.

(** ** The program *)

Section Program.

Context {H : Host}.

Definition ToBoolean (v : value) : bool :=
  match v with
  | VUndefined | VNull => false
  | VBool b => b
  | VNum lit => Number_ToBoolean lit
  | VStr s => match s with [] => false | _ => true end
  | VArr _ | VObj _ => true
  end.

(** [a || b] *)
Definition or_else (a b : value) : value :=
  if ToBoolean a then a else b.

(** [ToString].  An array is converted by [join], which takes null
    for the empty string; an object by [Object.prototype.toString],
    unless it has a property [toString] of its own, which cannot be
    a function here: then no conversion exists. *)
Fixpoint ToString (v : value) : result jstring :=
  match v with
  | VUndefined => Ok (js "undefined")
  | VNull => Ok (js "null")
  | VBool true => Ok (js "true")
  | VBool false => Ok (js "false")
  | VNum lit => Ok (Number_toString lit)
  | VStr s => Ok s
  | VArr items =>
      parts <- mapM (fun x => if is_nullish x then Ok [] else ToString x) items ;;
      Ok (join (js ",") parts)
  | VObj props =>
      if has_own (js "toString") props then Throw TypeError
      else Ok (js "[object Object]")
  end.

(** The parser of [Date.parse] and [new Date(string)].  The empty
    string is a date in no host. *)
Definition Date_parse_string (s : jstring) : option Z :=
  match s with
  | [] => None
  | _ =>
      match iso_parse s with
      | Some t => Some t
      | None => Date_parse_other s
      end
  end.

(** [Date.parse(v)] *)
Definition Date_parse (v : value) : result (option Z) :=
  s <- ToString v ;; Ok (Date_parse_string s).

(** The time value of [new Date(v)]: a string is parsed, anything
    else is converted to a number; arrays and objects convert to
    strings first. *)
Definition new_Date (v : value) : result (option Z) :=
  match v with
  | VUndefined => Ok None
  | VNull => Ok (Some 0)
  | VBool true => Ok (Some 1)
  | VBool false => Ok (Some 0)
  | VNum lit => Ok (Number_TimeClip lit)
  | VStr s => Ok (Date_parse_string s)
  | VArr _ | VObj _ => s <- ToString v ;; Ok (Date_parse_string s)
  end.

Definition parseDate (entry : value) : result Z :=
  let raw := or_else (or_else (opt_member entry (js "creationDate"))
                              (opt_member entry (js "modifiedDate")))
                     (VStr []) in
  value <- Date_parse raw ;;
  Ok (match value with None => 0 | Some t => t end).

(** [(a, b) => parseDate(a) - parseDate(b)] *)
Definition compareEntries (a b : value) : result Z :=
  x <- parseDate a ;; y <- parseDate b ;; Ok (x - y).

Definition sortEntries (entries : list value) : result (list value) :=
  Array_sort compareEntries entries.

Definition formatTimestamp (value : value) : result jstring :=
  date <- (if ToBoolean value then new_Date value else Ok (Some 0)) ;;
  match date with
  | None => Ok (js "1970-01-01 00-00-00")
  | Some t =>
      let year := getUTCFullYear t in
      let month := pad (getUTCMonth t + 1) in
      let day := pad (getUTCDate t) in
      let hour := pad (getUTCHours t) in
      let minute := pad (getUTCMinutes t) in
      let second := pad (getUTCSeconds t) in
      Ok (Z_to_jstring year ++ js "-" ++ month ++ js "-" ++ day ++ js " "
          ++ hour ++ js "-" ++ minute ++ js "-" ++ second)
  end.

Definition string_or_empty (v : value) : jstring :=
  match v with
  | VStr s => s
  | _ => []
  end.

Definition is_nil {A : Type} (l : list A) : bool :=
  match l with [] => true | _ => false end.

Definition getEntryText (entry : value) : jstring :=
  let text := string_or_empty (opt_member entry (js "text")) in
  if negb (is_nil (trim text)) then cleanupText (trim text)
  else
    match opt_member entry (js "richText") with
    | VStr richText =>
        if negb (is_nil (trim richText)) then
          match JSON_parse richText with
          | Ok parsed =>
              let chunks :=
                match opt_member parsed (js "contents") with
                | VArr contents =>
                    trim (List.concat (map (fun part =>
                            string_or_empty (opt_member part (js "text")))
                          contents))
                | _ => []
                end in
              if negb (is_nil chunks) then cleanupText chunks
              else js "[No content]"
          | Throw _ => js "[No content]"
          end
        else js "[No content]"
    | _ => js "[No content]"
    end.

Definition separator : jstring := [10; 10; 45; 45; 45; 10; 10]%N.

Definition renderEntry (entry : value) : result jstring :=
  creationDate <- member entry (js "creationDate") ;;
  stamp <- (if ToBoolean creationDate then Ok creationDate
            else member entry (js "modifiedDate")) ;;
  title <- formatTimestamp stamp ;;
  let body := getEntryText entry in
  Ok (trim (js "# " ++ title ++ [10; 10]%N ++ body)).

Definition toMarkdown (entries : list value) : result jstring :=
  sorted <- sortEntries entries ;;
  sections <- mapM renderEntry sorted ;;
  Ok (join separator sections).

(** *** The archive

    [zip.files] as [Object.keys] lists it: the name of each stream
    and what [async("text")] resolves to, [None] when it rejects.  A
    name that ends with "journal.json" is no array index, so the
    candidates come in the order in which the archive was read. *)

Definition JSZip : Type := list (jstring * option jstring).

Record File : Type := {
  name : jstring;
  (** [await file.text()] *)
  file_text : jstring;
  (** [await JSZip.loadAsync(file)]; [None] when it rejects *)
  file_zip : option JSZip
}.

(** [await] on a promise of the archive library. *)
Definition of_promise {A : Type} (p : option A) : result A :=
  match p with
  | Some a => Ok a
  | None => Throw ArchiveError
  end.

Definition candidates (zip : JSZip) : list jstring :=
  filter (fun fileName => endsWith (toLowerCase fileName) (js "journal.json"))
         (map fst zip).

Definition by_length (a b : jstring) : result Z :=
  Ok (Z.of_nat (List.length a) - Z.of_nat (List.length b)).

(** [candidates[0]] after the sort by length. *)
Definition journalFileName (zip : JSZip) : result jstring :=
  if is_nil (candidates zip)
  then Throw (Error (js "No Journal.json found in zip export"))
  else
    sorted <- Array_sort by_length (candidates zip) ;;
    match sorted with
    | first :: _ => Ok first
    | [] => Throw TypeError
    end.

Definition parseJournalFromZip (file : File) : result value :=
  zip <- of_promise (file_zip file) ;;
  fileName <- journalFileName zip ;;
  match find (fun kv => jstring_eqb (fst kv) fileName) zip with
  | Some (_, content) => text <- of_promise content ;; JSON_parse text
  | None => Throw TypeError
  end.

(** *** The session: [currentMarkdown] and the page *)

Record session : Type := {
  currentMarkdown : jstring;
  preview_value : jstring;
  meta_textContent : jstring;
  copyBtn_disabled : bool;
  downloadBtn_disabled : bool;
  dropZone_processing : bool;
  statusText_className : jstring;
  statusText_textContent : jstring
}.

Definition set_status (processing : bool) (className message : jstring)
    (s : session) : session :=
  {| currentMarkdown := currentMarkdown s;
     preview_value := preview_value s;
     meta_textContent := meta_textContent s;
     copyBtn_disabled := copyBtn_disabled s;
     downloadBtn_disabled := downloadBtn_disabled s;
     dropZone_processing := processing;
     statusText_className := className;
     statusText_textContent := message |}.

Definition setProcessing : session -> session :=
  set_status true (js "status-text") (js "Processing file...").

Definition setSuccess (message : jstring) : session -> session :=
  set_status false (js "status-text success") message.

Definition setError (message : jstring) : session -> session :=
  set_status false (js "status-text error") message.

Definition setNoOutput (s : session) : session :=
  {| currentMarkdown := [];
     preview_value := [];
     meta_textContent := [];
     copyBtn_disabled := true;
     downloadBtn_disabled := true;
     dropZone_processing := dropZone_processing s;
     statusText_className := statusText_className s;
     statusText_textContent := statusText_textContent s |}.

(** Lines 130 to 133: the output is stored and the buttons enabled. *)
Definition setOutput (markdown : jstring) (s : session) : session :=
  {| currentMarkdown := markdown;
     preview_value := markdown;
     meta_textContent := meta_textContent s;
     copyBtn_disabled := false;
     downloadBtn_disabled := false;
     dropZone_processing := dropZone_processing s;
     statusText_className := statusText_className s;
     statusText_textContent := statusText_textContent s |}.

Definition set_meta (message : jstring) (s : session) : session :=
  {| currentMarkdown := currentMarkdown s;
     preview_value := preview_value s;
     meta_textContent := message;
     copyBtn_disabled := copyBtn_disabled s;
     downloadBtn_disabled := downloadBtn_disabled s;
     dropZone_processing := dropZone_processing s;
     statusText_className := statusText_className s;
     statusText_textContent := statusText_textContent s |}.

(** A statement of the [try] block: it changes the session and
    completes or throws; what it changed stays changed. *)
Definition stmt (A : Type) : Type := session -> session * result A.

Definition seq {A B : Type} (m : stmt A) (k : A -> stmt B) : stmt B :=
  fun s =>
    match m s with
    | (s', Ok a) => k a s'
    | (s', Throw e) => (s', Throw e)
    end.

Definition eval {A : Type} (r : result A) : stmt A := fun s => (s, r).

Definition exec (f : session -> session) : stmt unit :=
  fun s => (f s, Ok tt).

Notation "x <~ m ;; k" := (seq m (fun x => k))
  (at level 61, m at next level, right associativity).

(** [Array.isArray(journal?.entries) ? journal.entries : []] *)
Definition entries_of (journal : value) : list value :=
  match opt_member journal (js "entries") with
  | VArr entries => entries
  | _ => []
  end.

(** The body of the [try] block of [processFile]. *)
Definition processFile_try (isJson : bool) (file : File) : stmt unit :=
  _ <~ exec setProcessing ;;
  journal <~ eval (if isJson then JSON_parse (file_text file)
                   else parseJournalFromZip file) ;;
  let entries := entries_of journal in
  _ <~ eval (if is_nil entries
             then Throw (Error (js "No entries found in Journal.json"))
             else Ok tt) ;;
  markdown <~ eval (toMarkdown entries) ;;
  _ <~ eval (if is_nil (trim markdown)
             then Throw (Error (js "Could not build markdown output from entries"))
             else Ok tt) ;;
  _ <~ exec (setOutput markdown) ;;
  sortedEntries <~ eval (sortEntries entries) ;;
  first <~ eval (formatTimestamp
                   (opt_member (nth 0 sortedEntries VUndefined) (js "creationDate"))) ;;
  last <~ eval (formatTimestamp
                  (opt_member (List.last sortedEntries VUndefined) (js "creationDate"))) ;;
  _ <~ exec (setSuccess (js "Done. " ++ Z_to_jstring (Z.of_nat (List.length entries))
                         ++ js " entries converted.")) ;;
  exec (set_meta (js "Range: " ++ first ++ js " to " ++ last
                  ++ js " (UTC). Processed locally in your browser.")).

(** [error?.message || "Failed to process file"] *)
Definition error_message (e : exn) : jstring :=
  let message := match e with
                 | Error message => message
                 | _ => host_message e
                 end in
  if is_nil message then js "Failed to process file" else message.

Definition processFile (file : File) (s : session) : session :=
  let lowerName := toLowerCase (name file) in
  let isJson := endsWith lowerName (js ".json") in
  let isZip := endsWith lowerName (js ".zip") in
  if (negb isJson && negb isZip)%bool then
    setError (js "Unsupported file type. Use Day One .zip or Journal.json")
             (setNoOutput s)
  else
    match processFile_try isJson file s with
    | (s', Ok _) => s'
    | (s', Throw error) => setError (error_message error) (setNoOutput s')
    end.

End Program.

(** ** Definitions used to state the properties *)

(** The stable sort by an integer key, as a function. *)
Section SortBy.

Context {A : Type}.
Variable key : A -> Z.

Fixpoint insert_by (x : A) (l : list A) : list A :=
  match l with
  | [] => [x]
  | y :: l' => if key x - key y <=? 0 then x :: l else y :: insert_by x l'
  end.

Fixpoint sort_by (l : list A) : list A :=
  match l with
  | [] => []
  | x :: l' => insert_by x (sort_by l')
  end.

Definition key_le (a b : A) : Prop := key a <= key b.

End SortBy.

Section Statements.

Context {H : Host}.

(** The instant of an entry whose dates convert. *)
Definition instant (entry : value) : Z :=
  match parseDate entry with
  | Ok t => t
  | Throw _ => 0
  end.

(** The entry resolves to the instant [t]. *)
Definition has_instant (t : Z) (entry : value) : bool :=
  match parseDate entry with
  | Ok t' => t' =? t
  | Throw _ => false
  end.

(** The instants of [a] and [b], when they have one, are in order. *)
Definition instant_le (a b : value) : Prop :=
  forall ta tb, parseDate a = Ok ta -> parseDate b = Ok tb -> ta <= tb.

(** The instant of a field that is present and parseable. *)
Definition parsed_field (entry : value) (k : jstring) : option Z :=
  match opt_member entry k with
  | VStr s => Date_parse_string s
  | _ => None
  end.

(** Timestamp resolution in the words of the specification: the
    parsed [creationDate]; if absent or unparseable, the parsed
    [modifiedDate]; if both are absent or unparseable, the epoch. *)
Definition resolved_instant_spec (entry : value) : Z :=
  match parsed_field entry (js "creationDate") with
  | Some t => t
  | None =>
      match parsed_field entry (js "modifiedDate") with
      | Some t => t
      | None => 0
      end
  end.

Definition instant_or_epoch (parsed : option Z) : Z :=
  match parsed with
  | Some t => t
  | None => 0
  end.

End Statements.

(** Text resolution in the words of the specification: the rules in
    priority order, each yielding content or nothing. *)
Definition non_empty (s : jstring) : option jstring :=
  match s with
  | [] => None
  | _ => Some s
  end.

(** Rule 1: the plain [text], trimmed and cleaned. *)
Definition rule_text (entry : value) : option jstring :=
  match opt_member entry (js "text") with
  | VStr text => option_map cleanupText (non_empty (trim text))
  | _ => None
  end.

(** Rule 2: [richText] parses; the texts of its content parts, absent
    ones empty, concatenated, trimmed and cleaned. *)
Definition rule_richText (entry : value) : option jstring :=
  match opt_member entry (js "richText") with
  | VStr richText =>
      match JSON_parse richText with
      | Ok parsed =>
          match opt_member parsed (js "contents") with
          | VArr contents =>
              option_map cleanupText
                (non_empty (trim (List.concat
                   (map (fun part => string_or_empty (opt_member part (js "text")))
                        contents))))
          | _ => None
          end
      | Throw _ => None
      end
  | _ => None
  end.

(** The first rule that yields content wins; rules 3 and 4 are the
    placeholder. *)
Definition resolved_body_spec (entry : value) : jstring :=
  match rule_text entry with
  | Some body => body
  | None =>
      match rule_richText entry with
      | Some body => body
      | None => js "[No content]"
      end
  end.

(** The error conditions of the specification, as the exceptions the
    program throws for them. *)
Definition DocumentNotFound : exn :=
  Error (js "No Journal.json found in zip export").
Definition MalformedDocument : exn := SyntaxError.
Definition EmptyEntryList : exn :=
  Error (js "No entries found in Journal.json").
Definition EmptyRenderedOutput : exn :=
  Error (js "Could not build markdown output from entries").

(** A text that starts with the number sign. *)
Definition starts_with_hash (s : jstring) : Prop := exists r, s = 35%N :: r.

(** Neither an array nor an object: a value whose conversions to
    string and to number cannot throw. *)
Definition is_primitive (v : value) : bool :=
  match v with
  | VArr _ | VObj _ => false
  | _ => true
  end.

(** An entry that is not null and whose dates, if any, are primitive
    values. *)
Definition plain_entry (entry : value) : bool :=
  (negb (is_nullish entry)
   && is_primitive (get entry (js "creationDate"))
   && is_primitive (get entry (js "modifiedDate")))%bool.

(** ** Sample inputs *)

Definition entry_2023 : value :=
  VObj [(js "creationDate", VStr (js "2023-05-01T14:03:09Z"));
        (js "modifiedDate", VStr (js "2024-01-01T00:00:00Z"));
        (js "text", VStr (js "First"))].

Definition entry_modified_only : value :=
  VObj [(js "modifiedDate", VStr (js "2023-05-01T14:03:09Z"))].

(** A [creationDate] that is no date and a [modifiedDate] that is one. *)
Definition entry_bad_creationDate : value :=
  VObj [(js "creationDate", VStr (js "not-a-date"));
        (js "modifiedDate", VStr (js "2023-05-01T14:03:09Z"))].

Definition entry_undated : value :=
  VObj [(js "text", VStr (js "Undated"))].

Definition entry_1969 : value :=
  VObj [(js "creationDate", VStr (js "1969-12-31T00:00:00Z"));
        (js "text", VStr (js "Before the epoch"))].

Definition entry_rich : value :=
  VObj [(js "text", VStr []);
        (js "richText",
         VStr (jsq "{'contents':[{'text':'Hello'},{'text':' world'}]}"))].

Definition entry_rich_unparseable : value :=
  VObj [(js "text", VStr []);
        (js "richText", VStr (js "not-json"))].

(** A document whose only entry is null. *)
Definition file_null_entry : File :=
  {| name := js "Journal.json";
     file_text := jsq "{'entries':[null]}";
     file_zip := None |}.

(** A document that is no JSON text. *)
Definition file_malformed : File :=
  {| name := js "Journal.json";
     file_text := jsq "{'entries':";
     file_zip := None |}.

(** A document without [entries]. *)
Definition file_without_entries : File :=
  {| name := js "Journal.json";
     file_text := jsq "{'metadata':{'version':'1.0'}}";
     file_zip := None |}.

(** A session that shows the output of an earlier conversion. *)
Definition session_with_output : session :=
  {| currentMarkdown := js "# 2020-01-01 00-00-00" ++ [10; 10]%N ++ js "Earlier";
     preview_value := js "# 2020-01-01 00-00-00" ++ [10; 10]%N ++ js "Earlier";
     meta_textContent := js "Copied markdown to clipboard.";
     copyBtn_disabled := false;
     downloadBtn_disabled := false;
     dropZone_processing := false;
     statusText_className := js "status-text success";
     statusText_textContent := js "Done. 1 entries converted." |}.

(** The key of the sort of the candidates. *)
Definition length_key (a : jstring) : Z := Z.of_nat (List.length a).

(** [Array.isArray(v)] *)
Definition Array_isArray (v : value) : bool :=
  match v with
  | VArr _ => true
  | _ => false
  end.

Definition is_throw {A : Type} (r : result A) : bool :=
  match r with
  | Throw _ => true
  | Ok _ => false
  end.

Definition isJson (file : File) : bool :=
  endsWith (toLowerCase (name file)) (js ".json").

Definition isZip (file : File) : bool :=
  endsWith (toLowerCase (name file)) (js ".zip").

(** The conversion attempt ends in a terminal error: the file type is
    not supported, or the [try] block throws. *)
Definition attempt_fails {H : Host} (file : File) (s : session) : bool :=
  (negb (isJson file || isZip file)
   || is_throw (snd (processFile_try (isJson file) file s)))%bool.

(** Every field the page shows of an output is empty or disabled. *)
Definition no_output (s : session) : Prop :=
  currentMarkdown s = [] /\ preview_value s = [] /\ meta_textContent s = []
  /\ copyBtn_disabled s = true /\ downloadBtn_disabled s = true.

(** ** The rest of the page

    [dateStamp] and the handlers of the page's events, beside
    [processFile]. *)

(** [dateStamp()]; [now] is the time value of [new Date()]. *)
Definition dateStamp (now : Z) : jstring :=
  let year := getUTCFullYear now in
  let month := pad (getUTCMonth now + 1) in
  let day := pad (getUTCDate now) in
  Z_to_jstring year ++ js "-" ++ month ++ js "-" ++ day.

Definition setReady : session -> session :=
  set_status false (js "status-text") (js "Ready").

(** The page: the session, the clipboard, whether the preview is
    selected, and the files offered for download (name and content),
    latest first. *)
Record page : Type := {
  page_session : session;
  clipboard : jstring;
  preview_selected : bool;
  downloads : list (jstring * jstring)
}.

Definition with_session (f : session -> session) (p : page) : page :=
  {| page_session := f (page_session p);
     clipboard := clipboard p;
     preview_selected := preview_selected p;
     downloads := downloads p |}.

(** The [drop] and [change] handlers: the first file, if any, is
    processed.  ([change] also empties the file input, which is no part
    of [page].) *)
Definition on_files {H : Host} (files : list File) (p : page) : page :=
  match files with
  | [] => p
  | file :: _ => with_session (processFile file) p
  end.

(** The [click] handler of the copy button; [granted] tells whether
    [navigator.clipboard.writeText] resolves. *)
Definition copy_click (granted : bool) (p : page) : page :=
  if is_nil (currentMarkdown (page_session p)) then p
  else if granted then
    {| page_session := set_meta (js "Copied markdown to clipboard.") (page_session p);
       clipboard := currentMarkdown (page_session p);
       preview_selected := preview_selected p;
       downloads := downloads p |}
  else
    {| page_session :=
         set_meta (js "Clipboard permission blocked. Press Ctrl+C to copy selected output.")
                  (page_session p);
       clipboard := clipboard p;
       preview_selected := true;
       downloads := downloads p |}.

(** The [click] handler of the download button; [now] is the time of
    the click. *)
Definition download_click (now : Z) (p : page) : page :=
  if is_nil (currentMarkdown (page_session p)) then p
  else
    {| page_session := set_meta (js "Downloaded markdown file.") (page_session p);
       clipboard := clipboard p;
       preview_selected := preview_selected p;
       downloads :=
         (js "day-one-export-" ++ dateStamp now ++ js ".md",
          currentMarkdown (page_session p)) :: downloads p |}.

(** ** Definitions used to state further properties *)

(** The code units of a text that are no backslash. *)
Definition without_backslashes (s : jstring) : jstring :=
  filter (fun c => negb (is_backslash c)) s.

(** The decimal digits of a number below 100, and of one below 10000. *)
Definition digit_unit (n : Z) : N := Z.to_N (48 + n mod 10).

Definition two_digits (n : Z) : jstring :=
  [digit_unit (n / 10); digit_unit n].

Definition four_digits (n : Z) : jstring :=
  [digit_unit (n / 1000); digit_unit (n / 100); digit_unit (n / 10); digit_unit n].

(** The date and time [YYYY-MM-DDTHH:mm:ssZ] of the fields, and the
    header [YYYY-MM-DD HH-mm-ss] of the same fields. *)
Definition iso_string (y m d h mi sec : Z) : jstring :=
  four_digits y ++ 45%N :: two_digits m ++ 45%N :: two_digits d
  ++ 84%N :: two_digits h ++ 58%N :: two_digits mi ++ 58%N :: two_digits sec
  ++ [90%N].

Definition header_string (y m d h mi sec : Z) : jstring :=
  four_digits y ++ 45%N :: two_digits m ++ 45%N :: two_digits d
  ++ 32%N :: two_digits h ++ 45%N :: two_digits mi ++ 45%N :: two_digits sec.

(** A date of the years 1000 to 9999 and a time of day. *)
Definition legal_date_time (y m d h mi sec : Z) : bool :=
  ((1000 <=? y) && (y <=? 9999) && (1 <=? m) && (m <=? 12)
   && (1 <=? d) && (d <=? days_in_month m (InLeapYear y))
   && (0 <=? h) && (h <=? 23) && (0 <=? mi) && (mi <=? 59)
   && (0 <=? sec) && (sec <=? 59))%bool.

(** The time values of the years 1000 to 9999. *)
Definition four_digit_year (t : Z) : bool :=
  ((DayFromYear 1000 * msPerDay <=? t) && (t <? DayFromYear 10000 * msPerDay))%bool.

(** What the page shows agrees with the stored output: the preview
    holds it, and the buttons are enabled exactly when there is one. *)
Definition consistent (s : session) : Prop :=
  preview_value s = currentMarkdown s
  /\ copyBtn_disabled s = is_nil (currentMarkdown s)
  /\ downloadBtn_disabled s = is_nil (currentMarkdown s).

(** The dates of the entry convert: [parseDate] returns. *)
Definition dates_convert {H : Host} (entry : value) : bool :=
  negb (is_throw (parseDate entry)).

(** No number occurs twice. *)
Fixpoint distinct (l : list Z) : bool :=
  match l with
  | [] => true
  | x :: r => (negb (existsb (Z.eqb x) r) && distinct r)%bool
  end.

(** The events of the page, and the page after a series of events
    handled one after another. *)
Inductive event : Type :=
| Files (files : list File)          (* [drop], or [change] of the file input *)
| CopyClick (granted : bool)
| DownloadClick (now : Z).

Definition handle {H : Host} (p : page) (e : event) : page :=
  match e with
  | Files files => on_files files p
  | CopyClick granted => copy_click granted p
  | DownloadClick now => download_click now p
  end.

Definition handle_all {H : Host} (events : list event) (p : page) : page :=
  fold_left handle events p.

(** The session of a conversion that succeeded. *)
Definition converted (markdown : jstring) (n : nat) (first last : jstring)
    (s : session) : session :=
  set_meta (js "Range: " ++ first ++ js " to " ++ last
            ++ js " (UTC). Processed locally in your browser.")
    (setSuccess (js "Done. " ++ Z_to_jstring (Z.of_nat n) ++ js " entries converted.")
       (setOutput markdown (setProcessing s))).

(** The entry has a [creationDate] that counts as present. *)
Definition has_creationDate {H : Host} (entry : value) : bool :=
  ToBoolean (opt_member entry (js "creationDate")).

(** A document of two dated entries, later one first. *)
Definition file_journal : File :=
  {| name := js "Journal.json";
     file_text :=
       jsq "{'entries':[{'creationDate':'2023-05-01T14:03:09Z','text':'First'},{'creationDate':'2021-01-02T03:04:05Z','text':'Earlier'}]}";
     file_zip := None |}.

(** A document whose entry has a [modifiedDate] only. *)
Definition file_modified_only : File :=
  {| name := js "Journal.json";
     file_text := jsq "{'entries':[{'modifiedDate':'2023-05-01T14:03:09Z','text':'Edited'}]}";
     file_zip := None |}.

(** An archive with a journal beside another stream. *)
Definition file_archive : File :=
  {| name := js "Export.zip";
     file_text := [];
     file_zip := Some [(js "photos/1.jpg", Some []);
                       (js "Journal.json",
                        Some (jsq "{'entries':[{'creationDate':'2023-05-01T14:03:09Z','text':'First'}]}"))] |}.

Definition page_with_output : page :=
  {| page_session := session_with_output;
     clipboard := [];
     preview_selected := false;
     downloads := [] |}.

(** The header of a time value: what [formatTimestamp] builds from a
    valid date. *)
Definition format_time (t : Z) : jstring :=
  Z_to_jstring (getUTCFullYear t) ++ js "-" ++ pad (getUTCMonth t + 1)
  ++ js "-" ++ pad (getUTCDate t) ++ js " " ++ pad (getUTCHours t)
  ++ js "-" ++ pad (getUTCMinutes t) ++ js "-" ++ pad (getUTCSeconds t).

(** A date field as the export writes it: a string, or nothing. *)
Definition string_or_absent (v : value) : bool :=
  match v with
  | VStr _ | VUndefined | VNull => true
  | _ => false
  end.

(** * Properties *)

(** ** Dates *)

(** [YearFromDay] is the year of ECMAScript's [YearFromTime]: the year
    whose first day is the last one not after the day. *)
Lemma YearFromDay_spec (day : Z) :
  DayFromYear (YearFromDay day) <= day < DayFromYear (YearFromDay day + 1).
Proof.
  unfold YearFromDay.
  destruct (day <? DayFromYear (1970 + 400 * day / 146097)) eqn:Hlo.
  - apply Z.ltb_lt in Hlo. unfold DayFromYear in *.
    Z.to_euclidean_division_equations; lia.
  - apply Z.ltb_ge in Hlo.
    destruct (DayFromYear (1970 + 400 * day / 146097 + 1) <=? day) eqn:Hhi.
    + apply Z.leb_le in Hhi. unfold DayFromYear in *.
      Z.to_euclidean_division_equations; lia.
    + apply Z.leb_gt in Hhi. lia.
Qed.

Lemma div4_step (a : Z) :
  (a + 1) / 4 = a / 4 + (if (a + 1) mod 4 =? 0 then 1 else 0).
Proof.
  destruct ((a + 1) mod 4 =? 0) eqn:Hm;
    rewrite ?Z.eqb_eq, ?Z.eqb_neq in Hm; Z.to_euclidean_division_equations; lia.
Qed.

Lemma div100_step (a : Z) :
  (a + 1) / 100 = a / 100 + (if (a + 1) mod 100 =? 0 then 1 else 0).
Proof.
  destruct ((a + 1) mod 100 =? 0) eqn:Hm;
    rewrite ?Z.eqb_eq, ?Z.eqb_neq in Hm; Z.to_euclidean_division_equations; lia.
Qed.

Lemma div400_step (a : Z) :
  (a + 1) / 400 = a / 400 + (if (a + 1) mod 400 =? 0 then 1 else 0).
Proof.
  destruct ((a + 1) mod 400 =? 0) eqn:Hm;
    rewrite ?Z.eqb_eq, ?Z.eqb_neq in Hm; Z.to_euclidean_division_equations; lia.
Qed.

(** A year has 365 days, and one more if it is a leap year. *)
Lemma DaysInYear (y : Z) :
  DayFromYear (y + 1) = DayFromYear y + 365 + InLeapYear y.
Proof.
  unfold DayFromYear, InLeapYear.
  replace (y + 1 - 1969) with (y - 1969 + 1) by lia.
  replace (y + 1 - 1901) with (y - 1901 + 1) by lia.
  replace (y + 1 - 1601) with (y - 1601 + 1) by lia.
  rewrite div4_step, div100_step, div400_step.
  replace ((y - 1969 + 1) mod 4 =? 0) with (y mod 4 =? 0).
  2:{ destruct (y mod 4 =? 0) eqn:Hm; symmetry;
        rewrite ?Z.eqb_eq, ?Z.eqb_neq in *; Z.to_euclidean_division_equations; lia. }
  replace ((y - 1901 + 1) mod 100 =? 0) with (y mod 100 =? 0).
  2:{ destruct (y mod 100 =? 0) eqn:Hm; symmetry;
        rewrite ?Z.eqb_eq, ?Z.eqb_neq in *; Z.to_euclidean_division_equations; lia. }
  replace ((y - 1601 + 1) mod 400 =? 0) with (y mod 400 =? 0).
  2:{ destruct (y mod 400 =? 0) eqn:Hm; symmetry;
        rewrite ?Z.eqb_eq, ?Z.eqb_neq in *; Z.to_euclidean_division_equations; lia. }
  destruct (y mod 4 =? 0) eqn:H4; destruct (y mod 100 =? 0) eqn:H100;
    destruct (y mod 400 =? 0) eqn:H400; cbn [andb orb negb]; try lia;
    rewrite ?Z.eqb_eq, ?Z.eqb_neq in *; Z.to_euclidean_division_equations; lia.
Qed.

Lemma DayFromYear_le (y y' : Z) : y <= y' -> DayFromYear y <= DayFromYear y'.
Proof.
  intros Hle. unfold DayFromYear. Z.to_euclidean_division_equations; lia.
Qed.

Lemma YearFromDay_unique (day y : Z) :
  DayFromYear y <= day < DayFromYear (y + 1) -> YearFromDay day = y.
Proof.
  intros Hy. pose proof (YearFromDay_spec day) as Hs.
  destruct (Z.lt_trichotomy (YearFromDay day) y) as [Hlt | [Heq | Hgt]].
  - pose proof (DayFromYear_le (YearFromDay day + 1) y ltac:(lia)). lia.
  - exact Heq.
  - pose proof (DayFromYear_le (y + 1) (YearFromDay day) ltac:(lia)). lia.
Qed.

Lemma InLeapYear_range (y : Z) : InLeapYear y = 0 \/ InLeapYear y = 1.
Proof. unfold InLeapYear. destruct (_ || _)%bool; tauto. Qed.

(** One case for each month of the year. *)
Ltac each_month m Hm :=
  let Hcases := fresh "Hcases" in
  assert (Hcases : m = 1 \/ m = 2 \/ m = 3 \/ m = 4 \/ m = 5 \/ m = 6 \/ m = 7
                   \/ m = 8 \/ m = 9 \/ m = 10 \/ m = 11 \/ m = 12) by lia;
  clear Hm;
  repeat (destruct Hcases as [-> | Hcases]); try subst m.

Lemma MonthDate_of (m d leap : Z) :
  1 <= m <= 12 -> leap = 0 \/ leap = 1 -> 1 <= d <= days_in_month m leap ->
  MonthDate (days_before_month m leap + d - 1) leap = (m - 1, d).
Proof.
  intros Hm Hleap Hd.
  destruct Hleap as [-> | ->]; each_month m Hm;
    cbn [days_in_month days_before_month] in *; unfold MonthDate;
    repeat (match goal with
            | |- context [?a <? ?b] => destruct (Z.ltb_spec a b); try lia
            end);
    f_equal; lia.
Qed.

Lemma days_before_month_range (m d leap : Z) :
  1 <= m <= 12 -> leap = 0 \/ leap = 1 -> 1 <= d <= days_in_month m leap ->
  0 <= days_before_month m leap + d - 1 < 365 + leap.
Proof.
  intros Hm Hleap Hd.
  destruct Hleap as [-> | ->]; each_month m Hm;
    cbn [days_in_month days_before_month] in *; lia.
Qed.

(** A time value built from a legal date has the fields of that date. *)
Lemma date_fields (y m d ms : Z) :
  1 <= m <= 12 -> 1 <= d <= days_in_month m (InLeapYear y) ->
  0 <= ms < msPerDay ->
  let t := (DayFromYear y + days_before_month m (InLeapYear y) + d - 1) * msPerDay + ms in
  getUTCFullYear t = y /\ getUTCMonth t + 1 = m /\ getUTCDate t = d.
Proof.
  intros Hm Hd Hms t.
  pose proof (days_before_month_range m d _ Hm (InLeapYear_range y) Hd) as Hrange.
  assert (Hday : t / msPerDay
                 = DayFromYear y + days_before_month m (InLeapYear y) + d - 1).
  { unfold t, msPerDay in *. Z.to_euclidean_division_equations; lia. }
  assert (Hyear : getUTCFullYear t = y).
  { unfold getUTCFullYear. rewrite Hday. apply YearFromDay_unique.
    rewrite DaysInYear. lia. }
  split; [exact Hyear|].
  unfold getUTCMonth, getUTCDate, DayWithinYear. rewrite Hyear, Hday.
  replace (DayFromYear y + days_before_month m (InLeapYear y) + d - 1 - DayFromYear y)
    with (days_before_month m (InLeapYear y) + d - 1) by lia.
  rewrite (MonthDate_of m d _ Hm (InLeapYear_range y) Hd). simpl. lia.
Qed.

(** ** Strings *)

Lemma trimStart_not_white (c : N) (s : jstring) :
  is_white_space c = false -> trimStart (c :: s) = c :: s.
Proof. intros Hc. simpl. now rewrite Hc. Qed.

Lemma trimEnd_cons_not_white (c : N) (s : jstring) :
  is_white_space c = false -> trimEnd (c :: s) = c :: trimEnd s.
Proof.
  intros Hc. simpl. destruct (trimEnd s); [now rewrite Hc | reflexivity].
Qed.

Lemma trimEnd_app_not_white (p : jstring) (c : N) (s : jstring) :
  is_white_space c = false -> trimEnd (p ++ c :: s) = p ++ c :: trimEnd s.
Proof.
  intros Hc. induction p as [|a p IH]; simpl.
  - destruct (trimEnd s); [now rewrite Hc | reflexivity].
  - rewrite IH. now destruct p.
Qed.

Lemma trimEnd_nil_iff (s : jstring) :
  trimEnd s = [] <-> forallb is_white_space s = true.
Proof.
  induction s as [|c s IH]; simpl; [tauto|].
  destruct (trimEnd s) as [|d r].
  - destruct (is_white_space c); simpl.
    + split; intros _; [now apply IH | reflexivity].
    + split; discriminate.
  - split; [discriminate|].
    intros Hall. apply andb_true_iff in Hall as [_ Hall].
    apply IH in Hall. discriminate.
Qed.

Lemma forallb_trimStart (s : jstring) :
  forallb is_white_space (trimStart s) = forallb is_white_space s.
Proof.
  induction s as [|c s IH]; simpl; [reflexivity|].
  destruct (is_white_space c) eqn:Hc; simpl; [exact IH | now rewrite Hc].
Qed.

Lemma trim_nil_iff (s : jstring) :
  trim s = [] <-> forallb is_white_space s = true.
Proof.
  unfold trim. rewrite trimEnd_nil_iff, forallb_trimStart. tauto.
Qed.

(** ** [cleanupText] *)

(** Induction along the scan of [cleanupText]: a match consumes two
    code units, anything else one. *)
Lemma scan_ind (P : jstring -> Prop) :
  P [] ->
  (forall c, P [c]) ->
  (forall c d r,
      (is_backslash c && is_dot_or_hyphen d)%bool = true ->
      P r -> P (c :: d :: r)) ->
  (forall c d r,
      (is_backslash c && is_dot_or_hyphen d)%bool = false ->
      P (d :: r) -> P (c :: d :: r)) ->
  forall s, P s.
Proof.
  intros Hnil Hone Hmatch Hcopy s.
  assert (Hboth : P s /\ forall c, P (c :: s)).
  { induction s as [|d r [IHr IHdr]].
    - split; [exact Hnil | exact Hone].
    - split; [apply IHdr|].
      intros c. destruct (is_backslash c && is_dot_or_hyphen d)%bool eqn:Hm.
      + now apply Hmatch.
      + apply Hcopy; [exact Hm | apply IHdr]. }
  exact (proj1 Hboth).
Qed.

Lemma dot_or_hyphen_not_backslash (d : N) :
  is_dot_or_hyphen d = true -> is_backslash d = false.
Proof.
  unfold is_dot_or_hyphen, is_backslash. intros Hd.
  apply orb_true_iff in Hd as [Hd | Hd]; apply N.eqb_eq in Hd; now subst.
Qed.

(** The first code unit of the cleaned text is a period or a hyphen
    exactly when the text starts with one, or with an escaped one. *)
Lemma cleanupText_head (s : jstring) :
  match cleanupText s with
  | e :: _ => is_dot_or_hyphen e
  | [] => false
  end
  = match s with
    | c :: d :: _ =>
        (is_dot_or_hyphen c || (is_backslash c && is_dot_or_hyphen d))%bool
    | [c] => is_dot_or_hyphen c
    | [] => false
    end.
Proof.
  destruct s as [|c [|d r]]; simpl; try reflexivity.
  destruct (is_backslash c) eqn:Hc; simpl.
  - destruct (is_dot_or_hyphen d) eqn:Hd; simpl.
    + now rewrite orb_true_r.
    + now rewrite orb_false_r.
  - now rewrite orb_false_r.
Qed.

Lemma cleanupText_cons2 (c d : N) (r : jstring) :
  cleanupText (c :: d :: r)
  = if (is_backslash c && is_dot_or_hyphen d)%bool
    then d :: cleanupText r else c :: cleanupText (d :: r).
Proof. reflexivity. Qed.

Lemma escaped_cons2 (c d : N) (r : jstring) :
  escaped (c :: d :: r)
  = ((is_backslash c && is_dot_or_hyphen d) || escaped (d :: r))%bool.
Proof. reflexivity. Qed.

Lemma double_escaped_cons3 (c d e : N) (r : jstring) :
  double_escaped (c :: d :: e :: r)
  = ((is_backslash c && is_backslash d && is_dot_or_hyphen e)
     || double_escaped (d :: e :: r))%bool.
Proof. reflexivity. Qed.

(** Putting a code unit that is no backslash in front adds no match. *)
Lemma escaped_cons_other (d : N) (s : jstring) :
  is_backslash d = false -> escaped (d :: s) = escaped s.
Proof.
  intros Hd. destruct s as [|e s]; [reflexivity|].
  rewrite escaped_cons2, Hd. reflexivity.
Qed.

Lemma double_escaped_cons_other (d : N) (s : jstring) :
  is_backslash d = false -> double_escaped (d :: s) = double_escaped s.
Proof.
  intros Hd. destruct s as [|e [|f s]]; try reflexivity.
  rewrite double_escaped_cons3, Hd. reflexivity.
Qed.

(** What is still escaped after one pass is what was escaped twice. *)
Lemma escaped_cleanupText (s : jstring) :
  escaped (cleanupText s) = double_escaped s.
Proof.
  induction s as [| c | c d r Hm IH | c d r Hm IH] using scan_ind.
  - reflexivity.
  - reflexivity.
  - rewrite cleanupText_cons2, Hm.
    apply andb_true_iff in Hm as [Hc Hd].
    pose proof (dot_or_hyphen_not_backslash d Hd) as Hnb.
    rewrite (escaped_cons_other d _ Hnb), IH.
    destruct r as [|e r']; [reflexivity|].
    rewrite double_escaped_cons3, Hnb, andb_false_r.
    symmetry. apply (double_escaped_cons_other d (e :: r') Hnb).
  - rewrite cleanupText_cons2, Hm.
    pose proof (cleanupText_head (d :: r)) as Hhead.
    assert (Hstep : escaped (c :: cleanupText (d :: r))
                    = ((is_backslash c
                        && match cleanupText (d :: r) with
                           | e :: _ => is_dot_or_hyphen e
                           | [] => false
                           end) || escaped (cleanupText (d :: r)))%bool).
    { destruct (cleanupText (d :: r)) as [|e q] eqn:Hq.
      - destruct r as [|e r']; [discriminate|].
        rewrite cleanupText_cons2 in Hq.
        destruct (is_backslash d && is_dot_or_hyphen e)%bool; discriminate.
      - apply escaped_cons2. }
    rewrite Hstep, Hhead, IH. clear Hstep Hhead IH.
    destruct r as [|e r'].
    + simpl in Hm. simpl. now rewrite Hm.
    + rewrite double_escaped_cons3. f_equal.
      destruct (is_backslash c) eqn:Hc; [|reflexivity].
      simpl in Hm. rewrite Hm. reflexivity.
Qed.

Lemma cleanupText_length (s : jstring) :
  (List.length (cleanupText s) <= List.length s)%nat.
Proof.
  induction s as [| c | c d r Hm IH | c d r Hm IH] using scan_ind.
  - simpl; lia.
  - simpl; lia.
  - rewrite cleanupText_cons2, Hm. simpl. lia.
  - rewrite cleanupText_cons2, Hm. simpl in *. lia.
Qed.

(** The scan changes a text exactly when the pattern occurs in it. *)
Lemma cleanupText_fixed_iff (s : jstring) :
  cleanupText s = s <-> escaped s = false.
Proof.
  induction s as [| c | c d r Hm IH | c d r Hm IH] using scan_ind.
  - simpl; tauto.
  - simpl; tauto.
  - rewrite cleanupText_cons2, escaped_cons2, Hm. simpl orb.
    split; [|discriminate].
    intros Heq. apply (f_equal (@List.length N)) in Heq.
    pose proof (cleanupText_length r). simpl in Heq. lia.
  - rewrite cleanupText_cons2, escaped_cons2, Hm. simpl orb. rewrite <- IH.
    split; intros Heq; [now injection Heq | now rewrite Heq].
Qed.

(** C2 as stated fails: of two backslashes and a period, the first pass
    removes the second backslash and the second pass the first. *)
Lemma cleanupText_not_idempotent :
  cleanupText (js "\\.") = js "\."
  /\ cleanupText (cleanupText (js "\\.")) = js "."
  /\ cleanupText (cleanupText (js "\\.")) <> cleanupText (js "\\.").
Proof. repeat apply conj; try reflexivity. vm_compute. discriminate. Qed.

(** C2 (amended).  On a text in which no two backslashes are followed
    by a period or a hyphen, cleaning twice is cleaning once. *)
Theorem cleanupText_idempotent (s : jstring) :
  double_escaped s = false ->
  cleanupText (cleanupText s) = cleanupText s.
Proof.
  intros Hs. apply cleanupText_fixed_iff. now rewrite escaped_cleanupText.
Qed.

Lemma cleanupText_idempotent_witness :
  cleanupText (cleanupText (js "v1\.2 \- done")) = cleanupText (js "v1\.2 \- done").
Proof. apply cleanupText_idempotent. reflexivity. Defined.

(** X2.  On every other text the second pass removes a backslash more:
    where two backslashes are followed by a period or a hyphen, cleaning
    twice is not cleaning once. *)
Lemma cleanupText_twice_differs (s : jstring) :
  double_escaped s = true ->
  cleanupText (cleanupText s) <> cleanupText s.
Proof.
  intros Hs Heq. apply cleanupText_fixed_iff in Heq.
  rewrite escaped_cleanupText in Heq. congruence.
Qed.

(** ** [Array.prototype.sort] *)

Section SortFacts.

Context {A : Type}.
Variable comparefn : A -> A -> result Z.

Lemma insert_perm (x : A) (l r : list A) :
  insert comparefn x l = Ok r -> Permutation (x :: l) r.
Proof.
  revert r. induction l as [|y l IH]; simpl; intros r Hr.
  - injection Hr as <-. apply Permutation_refl.
  - destruct (comparefn x y) as [c|e]; simpl in Hr; [|discriminate].
    destruct (c <=? 0).
    + injection Hr as <-. apply Permutation_refl.
    + destruct (insert comparefn x l) as [r'|e]; simpl in Hr; [|discriminate].
      injection Hr as <-.
      eapply perm_trans; [apply perm_swap|].
      apply perm_skip. now apply IH.
Qed.

Lemma Array_sort_perm (l r : list A) :
  Array_sort comparefn l = Ok r -> Permutation l r.
Proof.
  revert r. induction l as [|x l IH]; simpl; intros r Hr.
  - injection Hr as <-. apply perm_nil.
  - destruct (Array_sort comparefn l) as [s|e]; simpl in Hr; [|discriminate].
    eapply perm_trans; [apply perm_skip, IH; reflexivity|].
    now apply insert_perm.
Qed.

(** With two elements or more, a sort that completes has called the
    comparison function on every element. *)
Lemma insert_compared (P : A -> Prop) (x : A) (l r : list A) :
  (forall a b c, comparefn a b = Ok c -> P a /\ P b) ->
  l <> [] -> insert comparefn x l = Ok r -> P x.
Proof.
  intros Hcmp Hl Hr. destruct l as [|y l]; [contradiction|].
  simpl in Hr. destruct (comparefn x y) as [c|e] eqn:Hc; [|discriminate].
  now apply (Hcmp _ _ _ Hc).
Qed.

Lemma Array_sort_compared (P : A -> Prop) (l r : list A) :
  (forall a b c, comparefn a b = Ok c -> P a /\ P b) ->
  (2 <= List.length l)%nat ->
  Array_sort comparefn l = Ok r -> Forall P l.
Proof.
  intros Hcmp. revert r. induction l as [|x l IH]; intros r Hlen Hr.
  - simpl in Hlen. lia.
  - simpl in Hr.
    destruct (Array_sort comparefn l) as [s|e] eqn:Hs; simpl in Hr; [|discriminate].
    assert (Hsl : Permutation l s) by now apply Array_sort_perm.
    assert (Hne : s <> []).
    { intros ->. apply Permutation_sym, Permutation_nil in Hsl. subst l.
      simpl in Hlen. lia. }
    constructor.
    + now apply (insert_compared P x s r).
    + destruct l as [|y [|z l]].
      * simpl in Hlen. lia.
      * (* one element besides [x]: it is the one [x] is compared with *)
        simpl in Hs. injection Hs as <-.
        simpl in Hr. destruct (comparefn x y) as [c|e] eqn:Hc; [|discriminate].
        constructor; [now apply (Hcmp _ _ _ Hc) | constructor].
      * apply (IH s); [simpl; lia | reflexivity].
Qed.

(** An exception of the sort is an exception of a comparison of two
    elements. *)
Lemma insert_throw (x : A) (l : list A) (e : exn) :
  insert comparefn x l = Throw e ->
  exists y, In y l /\ comparefn x y = Throw e.
Proof.
  induction l as [|y l IH]; simpl; [discriminate|].
  destruct (comparefn x y) as [c|e'] eqn:Hc; simpl.
  - destruct (c <=? 0); [discriminate|].
    destruct (insert comparefn x l) as [r|e'']; simpl; [discriminate|].
    intros [= ->]. destruct (IH eq_refl) as (z & Hz & Hxz).
    exists z. split; [now right | exact Hxz].
  - intros [= ->]. exists y. split; [now left | exact Hc].
Qed.

Lemma Array_sort_throw (l : list A) (e : exn) :
  Array_sort comparefn l = Throw e ->
  exists x y, In x l /\ In y l /\ comparefn x y = Throw e.
Proof.
  induction l as [|x l IH]; simpl; [discriminate|].
  destruct (Array_sort comparefn l) as [s|e'] eqn:Hs; simpl.
  - intros Hi. apply insert_throw in Hi as (y & Hy & Hxy).
    exists x, y. split; [now left|]. split; [|exact Hxy].
    right. eapply Permutation_in; [|exact Hy].
    apply Permutation_sym. now apply Array_sort_perm.
  - intros [= ->]. destruct (IH eq_refl) as (a & b & Ha & Hb & Hab).
    exists a, b. repeat split; [now right | now right | exact Hab].
Qed.

(** Where the comparison function is the difference of an integer
    key, the sort is [sort_by]. *)
Variable key : A -> Z.

Lemma insert_by_key (x : A) (l : list A) :
  (forall y, In y l -> comparefn x y = Ok (key x - key y)) ->
  insert comparefn x l = Ok (insert_by key x l).
Proof.
  induction l as [|y l IH]; simpl; intros Hcmp; [reflexivity|].
  rewrite (Hcmp y (or_introl eq_refl)). simpl.
  destruct (key x - key y <=? 0); [reflexivity|].
  rewrite IH; [reflexivity|]. intros z Hz. apply Hcmp. now right.
Qed.

Lemma insert_by_perm (x : A) (l : list A) :
  Permutation (x :: l) (insert_by key x l).
Proof.
  induction l as [|y l IH]; simpl; [apply Permutation_refl|].
  destruct (key x - key y <=? 0); [apply Permutation_refl|].
  eapply perm_trans; [apply perm_swap | now apply perm_skip].
Qed.

Lemma sort_by_perm (l : list A) : Permutation l (sort_by key l).
Proof.
  induction l as [|x l IH]; simpl; [apply perm_nil|].
  eapply perm_trans; [apply perm_skip, IH | apply insert_by_perm].
Qed.

Lemma Array_sort_by_key (l : list A) :
  (forall x y, In x l -> In y l -> comparefn x y = Ok (key x - key y)) ->
  Array_sort comparefn l = Ok (sort_by key l).
Proof.
  induction l as [|x l IH]; simpl; intros Hcmp; [reflexivity|].
  rewrite IH by (intros a b Ha Hb; apply Hcmp; now right). simpl.
  apply insert_by_key. intros y Hy. apply Hcmp; [now left|].
  right. eapply Permutation_in; [|exact Hy].
  apply Permutation_sym, sort_by_perm.
Qed.

Lemma insert_by_sorted (x : A) (l : list A) :
  StronglySorted (key_le key) l -> StronglySorted (key_le key) (insert_by key x l).
Proof.
  induction 1 as [|y l Hs IH Hall]; simpl.
  - constructor; constructor.
  - destruct (key x - key y <=? 0) eqn:Hc.
    + apply Z.leb_le in Hc. constructor; [now constructor|].
      constructor; [unfold key_le; lia|].
      eapply Forall_impl; [|exact Hall]. unfold key_le. intros; lia.
    + apply Z.leb_gt in Hc. constructor; [exact IH|].
      eapply Permutation_Forall; [apply insert_by_perm|].
      constructor; [unfold key_le; lia | exact Hall].
Qed.

Lemma sort_by_sorted (l : list A) : StronglySorted (key_le key) (sort_by key l).
Proof.
  induction l as [|x l IH]; simpl; [constructor | now apply insert_by_sorted].
Qed.

(** Stability: among the elements of one key, the order is kept. *)
Lemma insert_by_stable (t : Z) (x : A) (l : list A) :
  StronglySorted (key_le key) l ->
  filter (fun a => key a =? t) (insert_by key x l)
  = filter (fun a => key a =? t) (x :: l).
Proof.
  induction 1 as [|y l Hs IH Hall]; [reflexivity|].
  simpl insert_by. destruct (key x - key y <=? 0) eqn:Hc; [reflexivity|].
  apply Z.leb_gt in Hc.
  change (filter (fun a => key a =? t) (y :: insert_by key x l))
    with (if key y =? t then y :: filter (fun a => key a =? t) (insert_by key x l)
          else filter (fun a => key a =? t) (insert_by key x l)).
  rewrite IH. simpl.
  destruct (key x =? t) eqn:Hx, (key y =? t) eqn:Hy; try reflexivity.
  apply Z.eqb_eq in Hx, Hy. lia.
Qed.

Lemma sort_by_stable (t : Z) (l : list A) :
  filter (fun a => key a =? t) (sort_by key l)
  = filter (fun a => key a =? t) l.
Proof.
  induction l as [|x l IH]; [reflexivity|].
  simpl sort_by. rewrite insert_by_stable by apply sort_by_sorted.
  simpl. now rewrite IH.
Qed.

(** The first element of the sorted list is the first of the
    elements of least key. *)
Lemma sort_by_head (l : list A) (x : A) (rest : list A) :
  sort_by key l = x :: rest ->
  exists l1 l2, l = l1 ++ x :: l2
                /\ (forall a, In a l1 -> key x < key a)
                /\ (forall a, In a l2 -> key x <= key a).
Proof.
  revert x rest. induction l as [|y l IH]; intros x rest; [discriminate|].
  simpl. destruct (sort_by key l) as [|m s] eqn:Hs.
  - intros [= <- <-].
    assert (l = []) as ->.
    { apply Permutation_nil. rewrite <- Hs. apply Permutation_sym, sort_by_perm. }
    exists [], []. repeat split; intros a [].
  - destruct (IH m s eq_refl) as (l1 & l2 & -> & Hl1 & Hl2).
    simpl. destruct (key y - key m <=? 0) eqn:Hc.
    + apply Z.leb_le in Hc. intros [= <- <-].
      exists [], (l1 ++ m :: l2). repeat split; [intros a [] |].
      intros a Ha. apply in_app_or in Ha as [Ha | [<- | Ha]].
      * specialize (Hl1 a Ha). lia.
      * lia.
      * specialize (Hl2 a Ha). lia.
    + apply Z.leb_gt in Hc. intros [= <- <-].
      exists (y :: l1), l2. repeat split; [| exact Hl2].
      intros a [<- | Ha]; [lia | now apply Hl1].
Qed.

End SortFacts.

(** ** [parseDate] and [sortEntries] *)

Lemma StronglySorted_impl {A : Type} (R R' : A -> A -> Prop) (l : list A) :
  (forall a b, R a b -> R' a b) -> StronglySorted R l -> StronglySorted R' l.
Proof.
  intros HR. induction 1 as [|x l Hs IH Hall]; constructor; [exact IH|].
  eapply Forall_impl; [|exact Hall]. intros b. apply HR.
Qed.

Section SortEntriesFacts.

Context {H : Host}.

Lemma compareEntries_ok (a b : value) (c : Z) :
  compareEntries a b = Ok c ->
  (exists t, parseDate a = Ok t) /\ (exists t, parseDate b = Ok t).
Proof.
  unfold compareEntries.
  destruct (parseDate a) as [x|e]; simpl; [|discriminate].
  destruct (parseDate b) as [y|e]; simpl; [|discriminate].
  intros _. split; eexists; reflexivity.
Qed.

Lemma compareEntries_throw (a b : value) (e : exn) :
  compareEntries a b = Throw e ->
  parseDate a = Throw e \/ parseDate b = Throw e.
Proof.
  unfold compareEntries.
  destruct (parseDate a) as [x|e']; simpl; [|intros [= ->]; now left].
  destruct (parseDate b) as [y|e']; simpl; [discriminate|].
  intros [= ->]. now right.
Qed.

Lemma compareEntries_instant (a b : value) :
  (exists t, parseDate a = Ok t) -> (exists t, parseDate b = Ok t) ->
  compareEntries a b = Ok (instant a - instant b).
Proof.
  intros [ta Ha] [tb Hb]. unfold compareEntries, instant.
  now rewrite Ha, Hb.
Qed.

(** Where every date converts, [sortEntries] is the stable sort by
    instant. *)
Lemma sortEntries_by_instant (entries : list value) :
  Forall (fun x => exists t, parseDate x = Ok t) entries ->
  sortEntries entries = Ok (sort_by instant entries).
Proof.
  intros Hall. rewrite Forall_forall in Hall.
  apply Array_sort_by_key. intros x y Hx Hy.
  apply compareEntries_instant; now apply Hall.
Qed.

(** A sort that completes either had nothing to compare or is the
    stable sort by instant. *)
Lemma sortEntries_ok (entries sorted : list value) :
  sortEntries entries = Ok sorted ->
  ((List.length entries <= 1)%nat /\ sorted = entries)
  \/ (Forall (fun x => exists t, parseDate x = Ok t) entries
      /\ sorted = sort_by instant entries).
Proof.
  intros Hs. destruct entries as [|x [|y l]].
  - left. simpl in Hs. injection Hs as <-. split; [simpl; lia | reflexivity].
  - left. simpl in Hs. injection Hs as <-. split; [simpl; lia | reflexivity].
  - right.
    assert (Hall : Forall (fun x => exists t, parseDate x = Ok t) (x :: y :: l)).
    { eapply Array_sort_compared; [| | exact Hs].
      - intros a b c. apply compareEntries_ok.
      - simpl. lia. }
    split; [exact Hall|].
    rewrite (sortEntries_by_instant _ Hall) in Hs. now injection Hs.
Qed.

Lemma has_instant_instant (t : Z) (x : value) :
  (exists t', parseDate x = Ok t') -> has_instant t x = (instant x =? t).
Proof. intros [t' Hx]. unfold has_instant, instant. now rewrite Hx. Qed.

Lemma key_le_instant_le (a b : value) :
  key_le instant a b -> instant_le a b.
Proof.
  unfold key_le, instant_le, instant. intros Hle ta tb Ha Hb.
  now rewrite Ha, Hb in Hle.
Qed.

End SortEntriesFacts.

(** ** Timestamp resolution *)

Section Resolution.

Context {H : Host}.

(** C1 (amended).  The resolved instant is the parsed [creationDate]
    when [creationDate] is a non-empty string that parses, and the
    epoch when it is a non-empty string that does not parse:
    [modifiedDate] is not consulted.  When [creationDate] is absent
    or empty, the instant is that of [modifiedDate] in the same way;
    when both are absent or empty it is the epoch. *)
Theorem parseDate_resolution (entry : value) :
  (forall s,
      opt_member entry (js "creationDate") = VStr s -> is_nil s = false ->
      parseDate entry = Ok (instant_or_epoch (Date_parse_string s)))
  /\ (forall s,
         ToBoolean (opt_member entry (js "creationDate")) = false ->
         opt_member entry (js "modifiedDate") = VStr s -> is_nil s = false ->
         parseDate entry = Ok (instant_or_epoch (Date_parse_string s)))
  /\ (ToBoolean (opt_member entry (js "creationDate")) = false ->
      ToBoolean (opt_member entry (js "modifiedDate")) = false ->
      parseDate entry = Ok 0).
Proof.
  unfold parseDate, or_else. repeat split.
  - intros s -> Hs. destruct s as [|c s]; [discriminate|]. reflexivity.
  - intros s -> -> Hs. destruct s as [|c s]; [discriminate|]. reflexivity.
  - intros -> ->. reflexivity.
Qed.

End Resolution.

(** C1 as stated fails: with a [creationDate] that does not parse and a
    [modifiedDate] that does, the instant is the epoch, not that of
    [modifiedDate]. *)
Lemma parseDate_unparseable_creationDate :
  parsed_field (H := reference_host) entry_bad_creationDate (js "creationDate") = None
  /\ parsed_field (H := reference_host) entry_bad_creationDate (js "modifiedDate")
     = Some 1682949789000
  /\ parseDate (H := reference_host) entry_bad_creationDate = Ok 0
  /\ parseDate (H := reference_host) entry_bad_creationDate
     <> Ok (resolved_instant_spec (H := reference_host) entry_bad_creationDate).
Proof. repeat split; vm_compute; try reflexivity. discriminate. Qed.

Lemma parseDate_resolution_witness :
  parseDate (H := reference_host) entry_2023 = Ok 1682949789000
  /\ parseDate (H := reference_host) entry_modified_only = Ok 1682949789000
  /\ parseDate (H := reference_host) entry_undated = Ok 0.
Proof.
  split; [|split].
  - apply (proj1 (parseDate_resolution (H := reference_host) entry_2023)
             (js "2023-05-01T14:03:09Z")); reflexivity.
  - apply (proj1 (proj2 (parseDate_resolution (H := reference_host) entry_modified_only))
             (js "2023-05-01T14:03:09Z")); reflexivity.
  - apply (proj2 (proj2 (parseDate_resolution (H := reference_host) entry_undated)));
      reflexivity.
Defined.

Section Sorting.

Context {H : Host}.

(** C4.  [sortEntries] is stable: it completes unless the dates of
    some entry do not convert, and then, for every instant, the
    entries that resolve to it come in the order of the input (the
    output being a permutation of the input, in ascending order of
    instant). *)
Theorem sortEntries_stable (entries : list value) :
  match sortEntries entries with
  | Ok sorted =>
      Permutation entries sorted
      /\ StronglySorted instant_le sorted
      /\ forall t, filter (has_instant t) sorted = filter (has_instant t) entries
  | Throw e => exists x, In x entries /\ parseDate x = Throw e
  end.
Proof.
  destruct (sortEntries entries) as [sorted|e] eqn:Hs.
  - destruct (sortEntries_ok _ _ Hs) as [[Hlen ->] | [Hall ->]].
    + split; [apply Permutation_refl|]. split; [|reflexivity].
      destruct entries as [|x [|y l]]; [constructor | | simpl in Hlen; lia].
      constructor; constructor.
    + split; [apply sort_by_perm|]. split.
      * eapply StronglySorted_impl; [|apply sort_by_sorted].
        apply key_le_instant_le.
      * intros t.
        assert (Hall' : Forall (fun x => exists t, parseDate x = Ok t)
                               (sort_by instant entries)).
        { eapply Permutation_Forall; [apply sort_by_perm | exact Hall]. }
        rewrite Forall_forall in Hall, Hall'.
        rewrite (filter_ext_in (has_instant t) (fun a => instant a =? t)
                   (sort_by instant entries))
          by (intros a Ha; apply has_instant_instant, Hall', Ha).
        rewrite (filter_ext_in (has_instant t) (fun a => instant a =? t) entries)
          by (intros a Ha; apply has_instant_instant, Hall, Ha).
        apply sort_by_stable.
  - apply Array_sort_throw in Hs as (x & y & Hx & Hy & Hxy).
    apply compareEntries_throw in Hxy as [Hxy | Hxy]; eauto.
Qed.

End Sorting.

(** ** Text resolution *)

(** Between tokens, [JSON.parse] reads no code unit above the closing
    brace. *)
Lemma scan_between_above (c : N) : (126 <= c)%N -> scan_between c = None.
Proof.
  intros Hc. unfold scan_between, is_json_space, is_digit, is_name_unit.
  repeat match goal with
         | |- context [N.eqb c ?k] =>
             replace (N.eqb c k) with false by (symmetry; apply N.eqb_neq; lia)
         end.
  replace (N.leb c 57) with false by (symmetry; apply N.leb_gt; lia).
  replace (N.leb c 122) with false by (symmetry; apply N.leb_gt; lia).
  rewrite !andb_false_r. reflexivity.
Qed.

(** White space of ECMAScript is white space of JSON or an error. *)
Lemma scan_between_white (c : N) :
  is_white_space c = true ->
  scan_between c = Some (SBetween, []) \/ scan_between c = None.
Proof.
  unfold is_white_space. intros Hc.
  repeat (apply orb_true_iff in Hc as [Hc | Hc]);
    try (apply N.eqb_eq in Hc; subst c; vm_compute; tauto).
  apply andb_true_iff in Hc as [Hlo _]. apply N.leb_le in Hlo.
  right. apply scan_between_above. lia.
Qed.

Lemma scan_white (s : jstring) :
  forallb is_white_space s = true ->
  scan SBetween s = Some [] \/ scan SBetween s = None.
Proof.
  induction s as [|c s IH]; simpl; intros Hall; [now left|].
  apply andb_true_iff in Hall as [Hc Hall].
  destruct (scan_between_white c Hc) as [-> | ->]; [|now right].
  destruct (IH Hall) as [-> | ->]; [now left | now right].
Qed.

(** A text of white space only is no JSON text. *)
Lemma JSON_parse_white (s : jstring) :
  trim s = [] -> JSON_parse s = Throw SyntaxError.
Proof.
  intros Ht. apply trim_nil_iff in Ht. unfold JSON_parse.
  destruct (scan_white s Ht) as [-> | ->]; reflexivity.
Qed.

Lemma is_nil_non_empty (s : jstring) :
  non_empty s = if is_nil s then None else Some s.
Proof. now destruct s. Qed.

(** [getEntryText] follows the priority chain of the specification. *)
Lemma getEntryText_resolved (entry : value) :
  getEntryText entry = resolved_body_spec entry.
Proof.
  unfold getEntryText, resolved_body_spec, rule_text, rule_richText.
  destruct (opt_member entry (js "text")) as [| | | |text| |]; simpl string_or_empty;
    try rewrite is_nil_non_empty;
    try (destruct (is_nil (trim text)) eqn:Htext; simpl; [|reflexivity]);
    change (is_nil (trim [])) with true; simpl negb; cbv iota;
    (destruct (opt_member entry (js "richText")) as [| | | |richText| |];
     try reflexivity;
     destruct (is_nil (trim richText)) eqn:Hrich; simpl negb; cbv iota;
     [ destruct (trim richText) eqn:Ht; [|discriminate];
       now rewrite (JSON_parse_white richText Ht)
     | destruct (JSON_parse richText) as [parsed|e]; [|reflexivity];
       destruct (opt_member parsed (js "contents")) as [| | | | |contents|];
       try reflexivity;
       rewrite is_nil_non_empty;
       match goal with |- context [is_nil ?x] => destruct (is_nil x) end;
       reflexivity ]).
Qed.

(** C7.  The body is resolved by the priority chain: the plain text,
    trimmed and cleaned, if that is not empty; otherwise, if [richText]
    parses, the texts of its content parts (absent ones empty)
    concatenated, trimmed and cleaned, if that is not empty; otherwise,
    also when [richText] does not parse, the placeholder.  The two
    scenarios of the specification evaluate as it says. *)
Theorem getEntryText_priority_chain :
  (forall entry, getEntryText entry = resolved_body_spec entry)
  /\ getEntryText entry_rich = js "Hello world"
  /\ getEntryText entry_rich_unparseable = js "[No content]".
Proof.
  split; [exact getEntryText_resolved|].
  split; vm_compute; reflexivity.
Qed.

(** ** Rendering *)

Lemma mapM_Forall2 {A B : Type} (f : A -> result B) (l : list A) (r : list B) :
  mapM f l = Ok r -> Forall2 (fun a b => f a = Ok b) l r.
Proof.
  revert r. induction l as [|a l IH]; simpl; intros r Hr.
  - injection Hr as <-. constructor.
  - destruct (f a) as [b|e] eqn:Hb; simpl in Hr; [|discriminate].
    destruct (mapM f l) as [bs|e]; simpl in Hr; [|discriminate].
    injection Hr as <-. constructor; [exact Hb | now apply IH].
Qed.

Lemma mapM_total {A B : Type} (f : A -> result B) (l : list A) :
  Forall (fun a => exists b, f a = Ok b) l -> exists r, mapM f l = Ok r.
Proof.
  induction 1 as [|a l [b Hb] _ [r Hr]]; simpl.
  - eexists; reflexivity.
  - rewrite Hb, Hr. eexists; reflexivity.
Qed.

Lemma trim_hash (s : jstring) : starts_with_hash (trim (35%N :: s)).
Proof.
  unfold trim. rewrite trimStart_not_white by reflexivity.
  rewrite trimEnd_cons_not_white by reflexivity. eexists; reflexivity.
Qed.

Lemma join_hash (sep : jstring) (sections : list jstring) :
  sections <> [] -> Forall starts_with_hash sections ->
  starts_with_hash (join sep sections).
Proof.
  intros Hne Hall. destruct Hall as [|b rest [r ->] _]; [contradiction|].
  destruct rest; simpl; eexists; reflexivity.
Qed.

Lemma value_nested_ind (P : value -> Prop) :
  P VUndefined -> P VNull -> (forall b, P (VBool b)) ->
  (forall lit, P (VNum lit)) -> (forall s, P (VStr s)) ->
  (forall items, Forall P items -> P (VArr items)) ->
  (forall props, Forall (fun kv => P (snd kv)) props -> P (VObj props)) ->
  forall v, P v.
Proof.
  intros Hu Hn Hb Hnum Hs Ha Ho. fix IH 1.
  intros [| | b | lit | s | items | props].
  - exact Hu.
  - exact Hn.
  - apply Hb.
  - apply Hnum.
  - apply Hs.
  - apply Ha. induction items as [|x l IHl]; constructor; [apply IH | exact IHl].
  - apply Ho. induction props as [|[k x] l IHl]; constructor; [apply IH | exact IHl].
Qed.

Lemma mapM_throw {A B : Type} (f : A -> result B) (l : list A) (e : exn) :
  mapM f l = Throw e -> exists a, In a l /\ f a = Throw e.
Proof.
  induction l as [|a l IH]; simpl; [discriminate|].
  destruct (f a) as [b|e'] eqn:Hb; simpl.
  - destruct (mapM f l) as [bs|e'']; simpl; [discriminate|].
    intros [= <-]. destruct (IH eq_refl) as (x & Hx & Hfx).
    exists x. split; [now right | exact Hfx].
  - intros [= <-]. exists a. split; [now left | exact Hb].
Qed.

Section Rendering.

Context {H : Host}.

(** Every rendered block starts with the number sign of its header. *)
Lemma renderEntry_hash (entry : value) (block : jstring) :
  renderEntry entry = Ok block -> starts_with_hash block.
Proof.
  unfold renderEntry.
  destruct (member entry (js "creationDate")) as [c|e]; simpl; [|discriminate].
  destruct (if ToBoolean c then Ok c else member entry (js "modifiedDate"))
    as [stamp|e]; simpl; [|discriminate].
  destruct (formatTimestamp stamp) as [title|e]; simpl; [|discriminate].
  intros [= <-]. apply trim_hash.
Qed.

(** The document is the join of one block for each entry, in sorted
    order. *)
Lemma toMarkdown_sections (entries : list value) (markdown : jstring) :
  toMarkdown entries = Ok markdown ->
  exists sorted sections,
    sortEntries entries = Ok sorted
    /\ Forall2 (fun entry block => renderEntry entry = Ok block) sorted sections
    /\ markdown = join separator sections.
Proof.
  unfold toMarkdown.
  destruct (sortEntries entries) as [sorted|e]; simpl; [|discriminate].
  destruct (mapM renderEntry sorted) as [sections|e] eqn:Hm; simpl; [|discriminate].
  intros [= <-]. exists sorted, sections.
  split; [reflexivity|]. split; [now apply mapM_Forall2 | reflexivity].
Qed.

Lemma toMarkdown_count (entries : list value) (markdown : jstring) :
  toMarkdown entries = Ok markdown ->
  exists sections,
    List.length sections = List.length entries
    /\ Forall starts_with_hash sections
    /\ markdown = join separator sections.
Proof.
  intros Hmd. apply toMarkdown_sections in Hmd as (sorted & sections & Hs & Hr & ->).
  exists sections. split; [|split; [|reflexivity]].
  - rewrite <- (Forall2_length Hr). symmetry. apply Permutation_length.
    now apply Array_sort_perm with (comparefn := compareEntries).
  - clear Hs. induction Hr as [|e b l l' Hb _ IH]; constructor; [|exact IH].
    now apply renderEntry_hash with (entry := e).
Qed.

Lemma toMarkdown_not_blank (entries : list value) (markdown : jstring) :
  is_nil entries = false ->
  toMarkdown entries = Ok markdown ->
  is_nil (trim markdown) = false.
Proof.
  intros Hne Hmd. apply toMarkdown_count in Hmd as (sections & Hlen & Hall & ->).
  assert (Hsec : sections <> []).
  { intros ->. destruct entries; [discriminate | simpl in Hlen; lia]. }
  destruct (join_hash separator sections Hsec Hall) as [r ->].
  destruct (trim_hash r) as [r' ->]. reflexivity.
Qed.

Lemma ToString_throw (v : value) (e : exn) :
  ToString v = Throw e -> e = TypeError.
Proof.
  revert e. induction v as [| | [|] | lit | s | items IH | props _]
    using value_nested_ind; intros e; simpl; try discriminate.
  - destruct (mapM _ items) as [parts|e'] eqn:Hm; simpl; [discriminate|].
    intros [= <-]. apply mapM_throw in Hm as (x & Hx & Hfx).
    rewrite Forall_forall in IH.
    destruct (is_nullish x); [discriminate|]. now apply (IH x Hx).
  - destruct (has_own (js "toString") props); [|discriminate].
    now intros [= <-].
Qed.

Lemma Date_parse_throw (v : value) (e : exn) :
  Date_parse v = Throw e -> e = TypeError.
Proof.
  unfold Date_parse. destruct (ToString v) as [s|e'] eqn:Hs; simpl; [discriminate|].
  intros [= <-]. now apply ToString_throw with (v := v).
Qed.

Lemma parseDate_throw (entry : value) (e : exn) :
  parseDate entry = Throw e -> e = TypeError.
Proof.
  unfold parseDate.
  destruct (Date_parse _) as [t|e'] eqn:Hd; simpl; [discriminate|].
  intros [= <-]. now apply Date_parse_throw in Hd.
Qed.

Lemma sortEntries_throw (entries : list value) (e : exn) :
  sortEntries entries = Throw e -> e = TypeError.
Proof.
  intros Hs. apply Array_sort_throw in Hs as (x & y & _ & _ & Hxy).
  apply compareEntries_throw in Hxy as [Hxy | Hxy];
    now apply parseDate_throw in Hxy.
Qed.

Lemma formatTimestamp_throw (v : value) (e : exn) :
  formatTimestamp v = Throw e -> e = TypeError.
Proof.
  unfold formatTimestamp. destruct (ToBoolean v).
  - destruct (new_Date v) as [[t|]|e'] eqn:Hd; simpl; try discriminate.
    intros [= <-]. unfold new_Date in Hd.
    destruct v as [| | [|] | lit | s | items | props]; try discriminate.
    + destruct (ToString (VArr items)) eqn:Hs; [discriminate|].
      injection Hd as <-. now apply ToString_throw in Hs.
    + destruct (ToString (VObj props)) eqn:Hs; [discriminate|].
      injection Hd as <-. now apply ToString_throw in Hs.
  - simpl. discriminate.
Qed.

Lemma member_throw (v : value) (k : jstring) (e : exn) :
  member v k = Throw e -> e = TypeError.
Proof. unfold member. destruct (is_nullish v); [now intros [= <-] | discriminate]. Qed.

Lemma renderEntry_throw (entry : value) (e : exn) :
  renderEntry entry = Throw e -> e = TypeError.
Proof.
  unfold renderEntry.
  destruct (member entry (js "creationDate")) as [c|e'] eqn:Hc; simpl;
    [|intros [= <-]; now apply member_throw in Hc].
  destruct (ToBoolean c).
  - simpl. destruct (formatTimestamp c) as [title|e'] eqn:Hf; simpl; [discriminate|].
    intros [= <-]. now apply formatTimestamp_throw in Hf.
  - destruct (member entry (js "modifiedDate")) as [m|e'] eqn:Hm; simpl;
      [|intros [= <-]; now apply member_throw in Hm].
    destruct (formatTimestamp m) as [title|e'] eqn:Hf; simpl; [discriminate|].
    intros [= <-]. now apply formatTimestamp_throw in Hf.
Qed.

Lemma toMarkdown_throw (entries : list value) (e : exn) :
  toMarkdown entries = Throw e -> e = TypeError.
Proof.
  unfold toMarkdown.
  destruct (sortEntries entries) as [sorted|e'] eqn:Hs; simpl;
    [|intros [= <-]; now apply sortEntries_throw in Hs].
  destruct (mapM renderEntry sorted) as [sections|e'] eqn:Hm; simpl; [discriminate|].
  intros [= <-]. apply mapM_throw in Hm as (x & _ & Hx).
  now apply renderEntry_throw in Hx.
Qed.

Lemma JSON_parse_throw (text : jstring) (e : exn) :
  JSON_parse text = Throw e -> e = SyntaxError.
Proof.
  unfold JSON_parse. destruct (scan SBetween text) as [ts|]; [|now intros [= <-]].
  destruct (parse_tokens (PValue []) ts); [discriminate | now intros [= <-]].
Qed.

Lemma journalFileName_throw (zip : JSZip) (e : exn) :
  journalFileName zip = Throw e -> e = DocumentNotFound \/ e = TypeError.
Proof.
  unfold journalFileName. destruct (is_nil (candidates zip)).
  - intros [= <-]. now left.
  - destruct (Array_sort by_length (candidates zip)) as [[|first rest]|e'] eqn:Hs;
      simpl; try discriminate.
    + intros [= <-]. now right.
    + intros [= <-]. apply Array_sort_throw in Hs as (x & y & _ & _ & Hxy).
      discriminate.
Qed.

Lemma parseJournalFromZip_throw (file : File) (e : exn) :
  parseJournalFromZip file = Throw e ->
  e = ArchiveError \/ e = DocumentNotFound \/ e = TypeError \/ e = SyntaxError.
Proof.
  unfold parseJournalFromZip.
  destruct (file_zip file) as [zip|]; simpl; [|intros [= <-]; now left].
  destruct (journalFileName zip) as [fileName|e'] eqn:Hn; simpl.
  - destruct (find _ zip) as [[k [text|]]|]; simpl.
    + intros He. apply JSON_parse_throw in He. tauto.
    + intros [= <-]. now left.
    + intros [= <-]. tauto.
  - intros [= <-]. apply journalFileName_throw in Hn. tauto.
Qed.

(** The exceptions of the [try] block: the error of an empty
    rendering is not among them. *)
Lemma processFile_try_throw (isJson : bool) (file : File) (s s' : session) (e : exn) :
  processFile_try isJson file s = (s', Throw e) ->
  e = ArchiveError \/ e = DocumentNotFound \/ e = MalformedDocument
  \/ e = EmptyEntryList \/ e = TypeError.
Proof.
  unfold processFile_try, seq, exec, eval.
  destruct (if isJson then JSON_parse (file_text file) else parseJournalFromZip file)
    as [journal|e'] eqn:Hj.
  2:{ intros [= _ <-]. destruct isJson.
      - apply JSON_parse_throw in Hj. unfold MalformedDocument. tauto.
      - apply parseJournalFromZip_throw in Hj. unfold MalformedDocument. tauto. }
  destruct (is_nil (entries_of journal)) eqn:Hnil.
  { intros [= _ <-]. tauto. }
  destruct (toMarkdown (entries_of journal)) as [markdown|e'] eqn:Hmd.
  2:{ intros [= _ <-]. apply toMarkdown_throw in Hmd. tauto. }
  rewrite (toMarkdown_not_blank _ _ Hnil Hmd).
  destruct (sortEntries (entries_of journal)) as [sorted|e'] eqn:Hs.
  2:{ intros [= _ <-]. apply sortEntries_throw in Hs. tauto. }
  destruct (formatTimestamp (opt_member (nth 0 sorted VUndefined) (js "creationDate")))
    as [first|e'] eqn:Hf.
  2:{ intros [= _ <-]. apply formatTimestamp_throw in Hf. tauto. }
  destruct (formatTimestamp (opt_member (List.last sorted VUndefined) (js "creationDate")))
    as [last|e'] eqn:Hl.
  2:{ intros [= _ <-]. apply formatTimestamp_throw in Hl. tauto. }
  discriminate.
Qed.

End Rendering.

(** ** Entries without dates, null entries *)

(** A text that ends with a code unit that is no white space. *)
Lemma trimEnd_ends (s : jstring) :
  trimEnd s = []
  \/ exists p c, trimEnd s = p ++ [c] /\ is_white_space c = false.
Proof.
  induction s as [|a s IH]; simpl; [now left|].
  destruct IH as [-> | (p & c & -> & Hc)].
  - destruct (is_white_space a) eqn:Ha; [now left|].
    right. exists [], a. now split.
  - right. exists (a :: p), c. split; [|exact Hc]. now destruct p.
Qed.

Lemma cleanupText_ends (s p : jstring) (c : N) :
  s = p ++ [c] -> exists p', cleanupText s = p' ++ [c].
Proof.
  revert p. induction s as [| a | a d r Hm IH | a d r Hm IH] using scan_ind;
    intros p Hs.
  - now destruct p.
  - destruct p as [|b [|b' p]]; try discriminate.
    injection Hs as -> . now exists [].
  - rewrite cleanupText_cons2, Hm.
    destruct p as [|b [|b' p]]; try discriminate.
    + injection Hs as _ -> ->. now exists [].
    + injection Hs as _ _ ->. destruct (IH p eq_refl) as [p' ->].
      now exists (d :: p').
  - rewrite cleanupText_cons2, Hm.
    destruct p as [|b p]; [discriminate|].
    injection Hs as _ Hs. destruct (IH p Hs) as [p' ->].
    now exists (a :: p').
Qed.

Lemma trim_cleanupText_ends (s : jstring) :
  is_nil (trim s) = false ->
  exists p c, cleanupText (trim s) = p ++ [c] /\ is_white_space c = false.
Proof.
  intros Hs. unfold trim in *.
  destruct (trimEnd_ends (trimStart s)) as [Hnil | (p & c & Hp & Hc)].
  - rewrite Hnil in Hs. discriminate.
  - destruct (cleanupText_ends _ p c Hp) as [p' Hp'].
    exists p', c. now split.
Qed.

(** The body is never empty and ends with no white space. *)
Lemma getEntryText_ends (entry : value) :
  exists p c, getEntryText entry = p ++ [c] /\ is_white_space c = false.
Proof.
  assert (Hplace : exists p c, js "[No content]" = p ++ [c]
                               /\ is_white_space c = false).
  { exists (js "[No content"), 93%N. split; reflexivity. }
  unfold getEntryText.
  destruct (is_nil (trim (string_or_empty (opt_member entry (js "text"))))) eqn:Ht;
    simpl negb; cbv iota; [|now apply trim_cleanupText_ends].
  destruct (opt_member entry (js "richText")) as [| | | |richText| |]; try exact Hplace.
  destruct (is_nil (trim richText)); simpl negb; cbv iota; [exact Hplace|].
  destruct (JSON_parse richText) as [parsed|e]; [|exact Hplace].
  destruct (opt_member parsed (js "contents")) as [| | | | |contents|];
    try exact Hplace.
  match goal with |- context [is_nil ?x] => destruct (is_nil x) eqn:Hc end;
    simpl negb; cbv iota; [exact Hplace|].
  now apply trim_cleanupText_ends.
Qed.

(** A block that starts with the number sign and ends with no white
    space is trimmed already. *)
Lemma trim_hash_ends (s : jstring) (c : N) :
  is_white_space c = false -> trim (35%N :: s ++ [c]) = 35%N :: s ++ [c].
Proof.
  intros Hc. unfold trim. rewrite trimStart_not_white by reflexivity.
  change (35%N :: s ++ [c]) with ((35%N :: s) ++ [c]).
  rewrite trimEnd_app_not_white by exact Hc. reflexivity.
Qed.

Lemma StronglySorted_after {A : Type} (R : A -> A -> Prop) (l1 l2 : list A) (x : A) :
  StronglySorted R (l1 ++ x :: l2) -> Forall (R x) l2.
Proof.
  induction l1 as [|a l1 IH]; simpl; intros Hs.
  - now inversion Hs.
  - apply IH. now inversion Hs.
Qed.

Section Sentinel.

Context {H : Host}.

(** C5 (amended).  An entry with neither [creationDate] nor
    [modifiedDate] resolves to the epoch; its block is the header
    "1970-01-01 00-00-00" and its body; and it never comes after an
    entry whose instant is later than the epoch.  (It comes after
    entries dated before 1970.) *)
Theorem undated_entry_sentinel (entry : value) :
  member entry (js "creationDate") = Ok VUndefined ->
  member entry (js "modifiedDate") = Ok VUndefined ->
  parseDate entry = Ok 0
  /\ renderEntry entry
     = Ok (js "# 1970-01-01 00-00-00" ++ [10; 10]%N ++ getEntryText entry)
  /\ forall entries sorted other t before after,
       sortEntries entries = Ok sorted ->
       parseDate other = Ok t -> 0 < t ->
       sorted = before ++ other :: after ->
       ~ In entry after.
Proof.
  intros Hc Hm.
  assert (Hinstant : parseDate entry = Ok 0).
  { unfold member in Hc, Hm. unfold parseDate, opt_member.
    destruct (is_nullish entry); [discriminate|].
    injection Hc as ->. injection Hm as ->. reflexivity. }
  split; [exact Hinstant|]. split.
  - unfold renderEntry. rewrite Hc. simpl. rewrite Hm. simpl.
    destruct (getEntryText_ends entry) as (p & c & -> & Hws).
    f_equal.
    exact (trim_hash_ends (js " 1970-01-01 00-00-00" ++ [10; 10]%N ++ p) c Hws).
  - intros entries sorted other t before after Hs Ht Hpos -> Hin.
    destruct (sortEntries_ok _ _ Hs) as [[Hlen Heq] | [_ Heq]].
    + rewrite <- Heq in Hlen. rewrite length_app in Hlen. simpl in Hlen.
      destruct after; [contradiction | simpl in Hlen; lia].
    + pose proof (sort_by_sorted instant entries) as Hsorted.
      rewrite <- Heq in Hsorted. apply StronglySorted_after in Hsorted.
      rewrite Forall_forall in Hsorted. specialize (Hsorted entry Hin).
      unfold key_le, instant in Hsorted. rewrite Ht, Hinstant in Hsorted. lia.
Qed.

(** C3.  A null entry: [parseDate] and [getEntryText] take it for an
    entry without fields, [toMarkdown] reads its [creationDate] and
    throws, so the document renders no block at all. *)
Theorem toMarkdown_null_entry :
  parseDate VNull = Ok 0
  /\ getEntryText VNull = js "[No content]"
  /\ renderEntry VNull = Throw TypeError
  /\ toMarkdown [VNull] = Throw TypeError
  /\ JSON_parse (file_text file_null_entry) = Ok (VObj [(js "entries", VArr [VNull])])
  /\ forall s, processFile file_null_entry s
               = setError (error_message TypeError) (setNoOutput (setProcessing s)).
Proof.
  repeat apply conj; reflexivity.
Qed.

(** C9.  With one entry at least, the rendered document is not blank:
    it starts with the number sign of the first header.  The [try]
    block of [processFile] never throws the error of an empty
    rendering. *)
Theorem empty_rendering_unreachable :
  (forall entries markdown,
      is_nil entries = false ->
      toMarkdown entries = Ok markdown ->
      is_nil (trim markdown) = false)
  /\ (forall isJson file s,
         snd (processFile_try isJson file s) <> Throw EmptyRenderedOutput).
Proof.
  split; [exact toMarkdown_not_blank|].
  intros isJson file s Hsnd.
  destruct (processFile_try isJson file s) as [s' r] eqn:Htry.
  simpl in Hsnd. subst r. apply processFile_try_throw in Htry.
  unfold MalformedDocument, DocumentNotFound, EmptyEntryList, EmptyRenderedOutput in Htry.
  destruct Htry as [Ht | [Ht | [Ht | [Ht | Ht]]]]; try discriminate;
    vm_compute in Ht; discriminate.
Qed.

End Sentinel.

(** C5 as stated fails: an entry dated in 1969 has a valid date and
    sorts before the entry without dates. *)
Lemma undated_entry_after_1969 :
  parsed_field (H := reference_host) entry_1969 (js "creationDate") = Some (-86400000)
  /\ sortEntries (H := reference_host) [entry_undated; entry_1969]
     = Ok [entry_1969; entry_undated].
Proof. split; vm_compute; reflexivity. Qed.

Lemma undated_entry_sentinel_witness :
  parseDate (H := reference_host) entry_undated = Ok 0
  /\ renderEntry (H := reference_host) entry_undated
     = Ok (js "# 1970-01-01 00-00-00" ++ [10; 10]%N ++ getEntryText entry_undated)
  /\ forall entries sorted other t before after,
       sortEntries (H := reference_host) entries = Ok sorted ->
       parseDate (H := reference_host) other = Ok t -> 0 < t ->
       sorted = before ++ other :: after ->
       ~ In entry_undated after.
Proof.
  apply (undated_entry_sentinel (H := reference_host) entry_undated); reflexivity.
Defined.

Lemma empty_rendering_unreachable_witness :
  is_nil (trim (js "# 1970-01-01 00-00-00" ++ [10; 10]%N ++ js "Undated")) = false.
Proof.
  apply (proj1 (empty_rendering_unreachable (H := reference_host)) [entry_undated]).
  - reflexivity.
  - vm_compute. reflexivity.
Defined.

(** ** The archive *)

Lemma sort_by_length (names : list jstring) :
  Array_sort by_length names = Ok (sort_by length_key names).
Proof. apply Array_sort_by_key. reflexivity. Qed.

(** C6.  Among the streams whose name ends, in any case of letters,
    with "journal.json", [parseJournalFromZip] takes the first of the
    shortest names in the order of enumeration, and throws when there
    is none; of "Journal.json" and "Export/Journal.json", in either
    order, it takes "Journal.json". *)
Theorem journalFileName_shortest :
  (forall zip fileName,
      In fileName (candidates zip)
      <-> In fileName (map fst zip)
          /\ endsWith (toLowerCase fileName) (js "journal.json") = true)
  /\ (forall zip,
         match journalFileName zip with
         | Ok fileName =>
             exists before after,
               candidates zip = before ++ fileName :: after
               /\ (forall c, In c before ->
                             (List.length fileName < List.length c)%nat)
               /\ (forall c, In c after ->
                             (List.length fileName <= List.length c)%nat)
         | Throw e => candidates zip = [] /\ e = DocumentNotFound
         end)
  /\ (forall top nested,
         journalFileName [(js "Journal.json", top); (js "Export/Journal.json", nested)]
         = Ok (js "Journal.json")
         /\ journalFileName [(js "Export/Journal.json", nested); (js "Journal.json", top)]
            = Ok (js "Journal.json"))
  /\ (forall top nested,
         parseJournalFromZip
           {| name := js "export.zip"; file_text := [];
              file_zip := Some [(js "Export/Journal.json", Some nested);
                                (js "Journal.json", Some top)] |}
         = JSON_parse top).
Proof.
  split; [|split; [|split]].
  - intros zip fileName.
    exact (filter_In (fun n => endsWith (toLowerCase n) (js "journal.json"))
                     fileName (map fst zip)).
  - intros zip. unfold journalFileName.
    destruct (candidates zip) as [|c0 cs] eqn:Hc; simpl is_nil; cbv iota.
    + now split.
    + rewrite sort_by_length. unfold bind.
      destruct (sort_by length_key (c0 :: cs)) as [|first rest] eqn:Hs.
      * exfalso. pose proof (sort_by_perm length_key (c0 :: cs)) as Hp.
        rewrite Hs in Hp. now apply Permutation_sym, Permutation_nil in Hp.
      * destruct (sort_by_head length_key _ _ _ Hs) as (l1 & l2 & Heq & H1 & H2).
        exists l1, l2. split; [exact Heq|]. unfold length_key in H1, H2. split.
        -- intros c Hin. specialize (H1 c Hin). lia.
        -- intros c Hin. specialize (H2 c Hin). lia.
  - intros top nested. split; reflexivity.
  - intros top nested. reflexivity.
Qed.

(** ** [processFile] *)

Section ProcessFile.

Context {H : Host}.

Lemma setError_no_output (message : jstring) (s : session) :
  no_output (setError message (setNoOutput s))
  /\ statusText_className (setError message (setNoOutput s)) = js "status-text error".
Proof. unfold no_output. repeat apply conj; reflexivity. Qed.

(** What [processFile] does with the outcome of the [try] block. *)
Lemma processFile_supported (file : File) (s : session) :
  (isJson file || isZip file)%bool = true ->
  processFile file s
  = match processFile_try (isJson file) file s with
    | (s', Ok _) => s'
    | (s', Throw error) => setError (error_message error) (setNoOutput s')
    end.
Proof.
  intros Hs. unfold processFile. fold (isJson file). fold (isZip file).
  rewrite <- negb_orb, Hs. reflexivity.
Qed.

Lemma processFile_unsupported (file : File) (s : session) :
  (isJson file || isZip file)%bool = false ->
  processFile file s
  = setError (js "Unsupported file type. Use Day One .zip or Journal.json")
             (setNoOutput s).
Proof.
  intros Hs. unfold processFile. fold (isJson file). fold (isZip file).
  rewrite <- negb_orb, Hs. reflexivity.
Qed.

(** C8.  A conversion attempt that ends in a terminal error (the file
    type is not supported, or the [try] block throws: no document in
    the archive, a malformed document, no entries, an empty
    rendering, or any other exception) leaves no output: the stored
    markdown, the preview and the note are empty, the buttons are
    disabled, and the status is an error. *)
Theorem terminal_error_resets_output (file : File) (s : session) :
  attempt_fails file s = true ->
  no_output (processFile file s)
  /\ statusText_className (processFile file s) = js "status-text error".
Proof.
  unfold attempt_fails. intros Hfail.
  destruct (isJson file || isZip file)%bool eqn:Hs.
  - rewrite (processFile_supported file s Hs).
    simpl in Hfail.
    destruct (processFile_try (isJson file) file s) as [s' [u|e]];
      [discriminate|].
    apply setError_no_output.
  - rewrite (processFile_unsupported file s Hs). apply setError_no_output.
Qed.

(** C10.  A document that parses and whose [entries] is missing, null
    or no array is treated as a document without entries: the
    attempt ends with "No entries found in Journal.json", as it does
    for an empty array, and not with a syntax error. *)
Theorem non_array_entries_empty_list (file : File) (s : session) (journal : value) :
  (isJson file || isZip file)%bool = true ->
  (if isJson file then JSON_parse (file_text file) else parseJournalFromZip file)
  = Ok journal ->
  Array_isArray (opt_member journal (js "entries")) = false
  \/ opt_member journal (js "entries") = VArr [] ->
  processFile_try (isJson file) file s = (setProcessing s, Throw EmptyEntryList)
  /\ processFile file s
     = setError (js "No entries found in Journal.json")
                (setNoOutput (setProcessing s)).
Proof.
  intros Hs Hparse Hentries.
  assert (Hnone : entries_of journal = []).
  { unfold entries_of. destruct Hentries as [Hna | ->]; [|reflexivity].
    now destruct (opt_member journal (js "entries")). }
  assert (Htry : processFile_try (isJson file) file s
                 = (setProcessing s, Throw EmptyEntryList)).
  { unfold processFile_try, seq, exec, eval. rewrite Hparse, Hnone. reflexivity. }
  split; [exact Htry|].
  rewrite (processFile_supported file s Hs), Htry. reflexivity.
Qed.

End ProcessFile.

Lemma terminal_error_resets_output_witness :
  no_output (processFile (H := reference_host) file_malformed session_with_output)
  /\ statusText_className
       (processFile (H := reference_host) file_malformed session_with_output)
     = js "status-text error".
Proof.
  apply (terminal_error_resets_output (H := reference_host)
           file_malformed session_with_output).
  vm_compute. reflexivity.
Defined.

Lemma non_array_entries_empty_list_witness :
  processFile_try (H := reference_host) (isJson file_without_entries)
    file_without_entries session_with_output
  = (setProcessing session_with_output, Throw EmptyEntryList)
  /\ processFile (H := reference_host) file_without_entries session_with_output
     = setError (js "No entries found in Journal.json")
                (setNoOutput (setProcessing session_with_output)).
Proof.
  apply (non_array_entries_empty_list (H := reference_host)
           file_without_entries session_with_output
           (VObj [(js "metadata", VObj [(js "version", VStr (js "1.0"))])])).
  - reflexivity.
  - vm_compute. reflexivity.
  - left. reflexivity.
Defined.

(** ** Entries that render *)

Section Returns.

Context {H : Host}.

Lemma ToString_primitive (v : value) :
  is_primitive v = true -> exists s, ToString v = Ok s.
Proof.
  destruct v as [| | [|] | lit | s | items | props]; simpl;
    try discriminate; intros _; eexists; reflexivity.
Qed.

Lemma new_Date_primitive (v : value) :
  is_primitive v = true -> exists d, new_Date v = Ok d.
Proof.
  destruct v as [| | [|] | lit | s | items | props]; simpl;
    try discriminate; intros _; eexists; reflexivity.
Qed.

Lemma formatTimestamp_primitive (v : value) :
  is_primitive v = true -> exists title, formatTimestamp v = Ok title.
Proof.
  intros Hv. unfold formatTimestamp. destruct (ToBoolean v).
  - destruct (new_Date_primitive v Hv) as [[t|] ->]; simpl; eexists; reflexivity.
  - simpl. eexists; reflexivity.
Qed.

Lemma or_else_primitive (a b : value) :
  is_primitive a = true -> is_primitive b = true ->
  is_primitive (or_else a b) = true.
Proof. intros Ha Hb. unfold or_else. now destruct (ToBoolean a). Qed.

Lemma parseDate_plain (entry : value) :
  plain_entry entry = true -> exists t, parseDate entry = Ok t.
Proof.
  unfold plain_entry, parseDate, opt_member, Date_parse.
  intros Hp. apply andb_true_iff in Hp as [Hp Hm].
  apply andb_true_iff in Hp as [Hn Hc].
  apply negb_true_iff in Hn. rewrite Hn.
  destruct (ToString_primitive
              (or_else (or_else (get entry (js "creationDate"))
                                (get entry (js "modifiedDate"))) (VStr [])))
    as [s ->].
  - repeat apply or_else_primitive; auto.
  - simpl. eexists; reflexivity.
Qed.

Lemma renderEntry_plain (entry : value) :
  plain_entry entry = true -> exists block, renderEntry entry = Ok block.
Proof.
  unfold plain_entry, renderEntry, member.
  intros Hp. apply andb_true_iff in Hp as [Hp Hm].
  apply andb_true_iff in Hp as [Hn Hc].
  apply negb_true_iff in Hn. rewrite Hn. simpl.
  destruct (ToBoolean (get entry (js "creationDate"))); simpl.
  - destruct (formatTimestamp_primitive _ Hc) as [title ->]. simpl.
    eexists; reflexivity.
  - destruct (formatTimestamp_primitive _ Hm) as [title ->]. simpl.
    eexists; reflexivity.
Qed.

(** X21.  On entries that are not null and have primitive dates, the
    whole of [toMarkdown] returns: one block for each entry, joined by
    the separator. *)
Lemma toMarkdown_returns (entries : list value) :
  forallb plain_entry entries = true ->
  exists sections,
    List.length sections = List.length entries
    /\ Forall starts_with_hash sections
    /\ toMarkdown entries = Ok (join separator sections).
Proof.
  intros Hall. rewrite forallb_forall in Hall.
  assert (Hdates : Forall (fun x => exists t, parseDate x = Ok t) entries).
  { apply Forall_forall. intros x Hx. apply parseDate_plain, Hall, Hx. }
  pose proof (sortEntries_by_instant entries Hdates) as Hsort.
  assert (Hrender : Forall (fun x => exists b, renderEntry x = Ok b)
                           (sort_by instant entries)).
  { apply Forall_forall. intros x Hx. apply renderEntry_plain, Hall.
    eapply Permutation_in; [|exact Hx]. apply Permutation_sym, sort_by_perm. }
  destruct (mapM_total renderEntry _ Hrender) as [sections Hsections].
  assert (Hmd : toMarkdown entries = Ok (join separator sections)).
  { unfold toMarkdown. rewrite Hsort. simpl. rewrite Hsections. reflexivity. }
  exists sections. split; [|split; [|exact Hmd]].
  - apply mapM_Forall2 in Hsections. rewrite <- (Forall2_length Hsections).
    symmetry. apply Permutation_length, sort_by_perm.
  - apply mapM_Forall2 in Hsections.
    clear -Hsections. induction Hsections as [|e b l l' Hb _ IH]; constructor.
    + now apply renderEntry_hash with (entry := e).
    + exact IH.
Qed.

End Returns.

(** ** The scenarios of the specification *)

Example timestamp_2023 :
  formatTimestamp (H := reference_host) (VStr (js "2023-05-01T14:03:09Z"))
  = Ok (js "2023-05-01 14-03-09").
Proof. reflexivity. Qed.

Example rejection_of_notes_txt :
  processFile (H := reference_host)
    {| name := js "notes.txt"; file_text := js "notes"; file_zip := None |}
    session_with_output
  = setError (js "Unsupported file type. Use Day One .zip or Journal.json")
             (setNoOutput session_with_output).
Proof. reflexivity. Qed.

Example zero_entries :
  processFile_try (H := reference_host) true
    {| name := js "Journal.json"; file_text := jsq "{'entries':[]}"; file_zip := None |}
    session_with_output
  = (setProcessing session_with_output, Throw EmptyEntryList).
Proof. reflexivity. Qed.

Example three_entries_rendered :
  toMarkdown (H := reference_host) [entry_2023; entry_undated; entry_1969]
  = Ok (js "# 1969-12-31 00-00-00" ++ [10; 10]%N ++ js "Before the epoch"
        ++ separator
        ++ js "# 1970-01-01 00-00-00" ++ [10; 10]%N ++ js "Undated"
        ++ separator
        ++ js "# 2023-05-01 14-03-09" ++ [10; 10]%N ++ js "First").
Proof. vm_compute. reflexivity. Qed.

(** * Further properties *)

(** ** [cleanupText] and [getEntryText] *)

(** X1.  [cleanupText] removes backslashes and nothing else: the code
    units that are no backslash are those of the input, in their order,
    and the text never grows. *)
Theorem cleanupText_removes_backslashes_only (s : jstring) :
  without_backslashes (cleanupText s) = without_backslashes s
  /\ (List.length (cleanupText s) <= List.length s)%nat.
Proof.
  split; [|apply cleanupText_length].
  unfold without_backslashes.
  induction s as [| c | c d r Hm IH | c d r Hm IH] using scan_ind.
  - reflexivity.
  - reflexivity.
  - rewrite cleanupText_cons2, Hm.
    apply andb_true_iff in Hm as [Hc Hd].
    simpl. rewrite Hc, IH. reflexivity.
  - rewrite cleanupText_cons2, Hm.
    change (filter (fun c0 => negb (is_backslash c0)) (c :: cleanupText (d :: r)))
      with (if negb (is_backslash c)
            then c :: filter (fun c0 => negb (is_backslash c0)) (cleanupText (d :: r))
            else filter (fun c0 => negb (is_backslash c0)) (cleanupText (d :: r))).
    rewrite IH. reflexivity.
Qed.

Lemma trimStart_starts (s : jstring) :
  trimStart s = []
  \/ exists c r, trimStart s = c :: r /\ is_white_space c = false.
Proof.
  induction s as [|a s IH]; simpl; [now left|].
  destruct (is_white_space a) eqn:Ha; [exact IH|].
  right. exists a, s. now split.
Qed.

Lemma trimEnd_cons (c : N) (r : jstring) :
  is_white_space c = false -> exists r', trimEnd (c :: r) = c :: r'.
Proof.
  intros Hc. rewrite trimEnd_cons_not_white by exact Hc. eexists; reflexivity.
Qed.

Lemma trim_starts (s : jstring) :
  trim s = [] \/ exists c r, trim s = c :: r /\ is_white_space c = false.
Proof.
  unfold trim. destruct (trimStart_starts s) as [-> | (c & r & -> & Hc)].
  - now left.
  - right. destruct (trimEnd_cons c r Hc) as [r' ->]. exists c, r'. now split.
Qed.

Lemma dot_or_hyphen_not_white (d : N) :
  is_dot_or_hyphen d = true -> is_white_space d = false.
Proof.
  unfold is_dot_or_hyphen. intros Hd.
  apply orb_true_iff in Hd as [Hd | Hd]; apply N.eqb_eq in Hd; now subst.
Qed.

Lemma cleanupText_starts (c : N) (r : jstring) :
  is_white_space c = false ->
  exists c' r', cleanupText (c :: r) = c' :: r' /\ is_white_space c' = false.
Proof.
  intros Hc. destruct r as [|d r].
  - exists c, []. now split.
  - rewrite cleanupText_cons2.
    destruct (is_backslash c && is_dot_or_hyphen d)%bool eqn:Hm.
    + apply andb_true_iff in Hm as [_ Hd].
      exists d, (cleanupText r). split; [reflexivity|].
      now apply dot_or_hyphen_not_white.
    + exists c, (cleanupText (d :: r)). now split.
Qed.

Lemma trim_fixed (s : jstring) (c d : N) (p : jstring) :
  is_white_space c = false -> is_white_space d = false ->
  s = c :: p -> (exists q, s = q ++ [d]) -> trim s = s.
Proof.
  intros Hc Hd -> [q Hq]. unfold trim.
  rewrite trimStart_not_white by exact Hc. rewrite Hq.
  rewrite trimEnd_app_not_white by exact Hd. reflexivity.
Qed.

(** The body has a first and a last code unit, and neither is white
    space. *)
Lemma getEntryText_starts (entry : value) :
  exists c r, getEntryText entry = c :: r /\ is_white_space c = false.
Proof.
  assert (Hplace : exists c r, js "[No content]" = c :: r
                               /\ is_white_space c = false).
  { exists 91%N, (js "No content]"). split; reflexivity. }
  assert (Htrim : forall s, is_nil (trim s) = false ->
            exists c r, cleanupText (trim s) = c :: r /\ is_white_space c = false).
  { intros s Hs. destruct (trim_starts s) as [Hnil | (c & r & Heq & Hc)].
    - rewrite Hnil in Hs. discriminate.
    - rewrite Heq. now apply cleanupText_starts. }
  unfold getEntryText.
  destruct (is_nil (trim (string_or_empty (opt_member entry (js "text"))))) eqn:Ht;
    simpl negb; cbv iota; [|now apply Htrim].
  destruct (opt_member entry (js "richText")) as [| | | |richText| |]; try exact Hplace.
  destruct (is_nil (trim richText)); simpl negb; cbv iota; [exact Hplace|].
  destruct (JSON_parse richText) as [parsed|e]; [|exact Hplace].
  destruct (opt_member parsed (js "contents")) as [| | | | |contents|];
    try exact Hplace.
  match goal with |- context [is_nil ?x] => destruct (is_nil x) eqn:Hc end;
    simpl negb; cbv iota; [exact Hplace|].
  now apply Htrim.
Qed.

(** X3.  The body of an entry is never empty and has no white space at
    either end: trimming it changes nothing. *)
Theorem getEntryText_trimmed (entry : value) :
  is_nil (getEntryText entry) = false
  /\ trim (getEntryText entry) = getEntryText entry.
Proof.
  destruct (getEntryText_starts entry) as (c & r & Hs & Hc).
  destruct (getEntryText_ends entry) as (q & d & He & Hd).
  split; [now rewrite Hs|].
  apply (trim_fixed _ c d r Hc Hd Hs). now exists q.
Qed.

(** ** Dates and headers *)

Lemma jstring_eqb_eq (a b : jstring) : jstring_eqb a b = true -> a = b.
Proof. unfold jstring_eqb. now destruct (list_eq_dec N.eq_dec a b). Qed.

(** The decimal strings of the numbers below 100 and of the years 1000
    to 9999, checked one by one. *)
Lemma pad_two_digits (n : Z) : 0 <= n <= 99 -> pad n = two_digits n.
Proof.
  intros Hn.
  assert (Hall : forallb (fun k => jstring_eqb (pad k) (two_digits k))
                         (map Z.of_nat (List.seq 0 100)) = true) by (vm_compute; reflexivity).
  rewrite forallb_forall in Hall. apply jstring_eqb_eq, Hall.
  apply in_map_iff. exists (Z.to_nat n). split; [lia|]. apply in_seq. lia.
Qed.

Lemma Z_to_jstring_four_digits (n : Z) :
  1000 <= n <= 9999 -> Z_to_jstring n = four_digits n.
Proof.
  intros Hn.
  assert (Hall : forallb (fun k => jstring_eqb (Z_to_jstring k) (four_digits k))
                         (map (fun k => 1000 + Z.of_nat k) (List.seq 0 (Z.to_nat 9000))) = true)
    by (vm_compute; reflexivity).
  rewrite forallb_forall in Hall. apply jstring_eqb_eq, Hall.
  apply in_map_iff. exists (Z.to_nat (n - 1000)). split; [lia|]. apply in_seq. lia.
Qed.

Lemma digit_inv (a : N) (x : Z) :
  digit a = Some x -> 0 <= x <= 9 /\ a = Z.to_N (48 + x).
Proof.
  unfold digit. destruct (N.leb 48 a && N.leb a 57)%bool eqn:Ha; [|discriminate].
  apply andb_true_iff in Ha as [Hlo Hhi]. apply N.leb_le in Hlo, Hhi.
  intros [= <-]. split; [lia|].
  replace (48 + (Z.of_N a - 48)) with (Z.of_N a) by lia.
  now rewrite N2Z.id.
Qed.

Lemma digit_digit_unit (n : Z) : digit (digit_unit n) = Some (n mod 10).
Proof.
  unfold digit, digit_unit.
  pose proof (Z.mod_pos_bound n 10 ltac:(lia)) as Hm.
  replace (N.leb 48 (Z.to_N (48 + n mod 10))) with true
    by (symmetry; apply N.leb_le; lia).
  replace (N.leb (Z.to_N (48 + n mod 10)) 57) with true
    by (symmetry; apply N.leb_le; lia).
  cbn [andb]. f_equal. rewrite Z2N.id by lia. lia.
Qed.

Lemma num2_inv (a b : N) (n : Z) :
  num2 a b = Some n -> 0 <= n <= 99 /\ [a; b] = two_digits n.
Proof.
  unfold num2. destruct (digit a) as [x|] eqn:Hx; [|discriminate].
  destruct (digit b) as [y|] eqn:Hy; [|discriminate].
  apply digit_inv in Hx as [Hx ->], Hy as [Hy ->]. intros Hn.
  assert (Hn' : n = 10 * x + y) by congruence. subst n. clear Hn.
  split; [lia|]. unfold two_digits, digit_unit.
  replace ((10 * x + y) / 10 mod 10) with x by (Z.to_euclidean_division_equations; lia).
  replace ((10 * x + y) mod 10) with y by (Z.to_euclidean_division_equations; lia).
  reflexivity.
Qed.

Lemma num4_inv (a b c d : N) (n : Z) :
  num4 a b c d = Some n -> 0 <= n <= 9999 /\ [a; b; c; d] = four_digits n.
Proof.
  unfold num4. destruct (num2 a b) as [x|] eqn:Hx; [|discriminate].
  destruct (num2 c d) as [y|] eqn:Hy; [|discriminate].
  apply num2_inv in Hx as [Hx Hab], Hy as [Hy Hcd]. intros Hn.
  assert (Hn' : n = 100 * x + y) by congruence. subst n. clear Hn.
  split; [lia|]. unfold two_digits in Hab, Hcd.
  injection Hab as -> ->. injection Hcd as -> ->.
  unfold four_digits, digit_unit.
  replace ((100 * x + y) / 1000 mod 10) with (x / 10 mod 10)
    by (Z.to_euclidean_division_equations; lia).
  replace ((100 * x + y) / 100 mod 10) with (x mod 10)
    by (Z.to_euclidean_division_equations; lia).
  replace ((100 * x + y) / 10 mod 10) with (y / 10 mod 10)
    by (Z.to_euclidean_division_equations; lia).
  replace ((100 * x + y) mod 10) with (y mod 10)
    by (Z.to_euclidean_division_equations; lia).
  reflexivity.
Qed.

Lemma num2_two_digits (n : Z) :
  0 <= n <= 99 -> num2 (digit_unit (n / 10)) (digit_unit n) = Some n.
Proof.
  intros Hn. unfold num2. rewrite !digit_digit_unit. f_equal.
  Z.to_euclidean_division_equations; lia.
Qed.

Lemma num4_four_digits (n : Z) :
  0 <= n <= 9999 ->
  num4 (digit_unit (n / 1000)) (digit_unit (n / 100))
       (digit_unit (n / 10)) (digit_unit n) = Some n.
Proof.
  intros Hn. unfold num4, num2. rewrite !digit_digit_unit. f_equal.
  Z.to_euclidean_division_equations; lia.
Qed.

(** The day within the year, as a month and a day of the month. *)
Lemma MonthDate_inv (d leap : Z) :
  0 <= d < 365 + leap -> leap = 0 \/ leap = 1 ->
  0 <= fst (MonthDate d leap) <= 11
  /\ 1 <= snd (MonthDate d leap) <= days_in_month (fst (MonthDate d leap) + 1) leap
  /\ days_before_month (fst (MonthDate d leap) + 1) leap + snd (MonthDate d leap) - 1 = d.
Proof.
  intros Hd Hleap. unfold MonthDate.
  destruct Hleap as [-> | ->];
    repeat (match goal with
            | |- context [?a <? ?b] => destruct (Z.ltb_spec a b)
            end);
    cbn [fst snd];
    repeat match goal with
           | |- context [?k + 1] =>
               match k with
               | 0 => change (k + 1) with 1
               | Zpos _ => let v := eval compute in (k + 1) in change (k + 1) with v
               end
           end;
    cbn [days_in_month days_before_month]; lia.
Qed.

Lemma DayWithinYear_range (t : Z) :
  0 <= DayWithinYear t < 365 + InLeapYear (getUTCFullYear t).
Proof.
  unfold DayWithinYear, getUTCFullYear.
  pose proof (YearFromDay_spec (t / msPerDay)) as Hs.
  rewrite DaysInYear in Hs. lia.
Qed.

(** The date fields of a time value make up its day number. *)
Lemma fields_day (t : Z) :
  let leap := InLeapYear (getUTCFullYear t) in
  1 <= getUTCMonth t + 1 <= 12
  /\ 1 <= getUTCDate t <= days_in_month (getUTCMonth t + 1) leap
  /\ DayFromYear (getUTCFullYear t) + days_before_month (getUTCMonth t + 1) leap
     + getUTCDate t - 1 = t / msPerDay.
Proof.
  intros leap. unfold getUTCMonth, getUTCDate. fold leap.
  destruct (MonthDate_inv (DayWithinYear t) leap (DayWithinYear_range t)
              (InLeapYear_range _)) as (Hm & Hd & Hday).
  split; [lia|]. split; [exact Hd|].
  rewrite <- Z.add_sub_assoc, <- Z.add_assoc.
  rewrite Z.add_sub_assoc, Hday. unfold DayWithinYear. lia.
Qed.

Lemma days_in_month_le (m leap : Z) :
  leap = 0 \/ leap = 1 -> days_in_month m leap <= 31.
Proof.
  intros [-> | ->]; unfold days_in_month;
    repeat match goal with |- context [match ?x with _ => _ end] => destruct x end;
    lia.
Qed.

Lemma four_digit_year_range (t : Z) :
  four_digit_year t = true -> 1000 <= getUTCFullYear t <= 9999.
Proof.
  unfold four_digit_year. intros Ht. apply andb_true_iff in Ht as [Hlo Hhi].
  apply Z.leb_le in Hlo. apply Z.ltb_lt in Hhi.
  pose proof (YearFromDay_spec (t / msPerDay)) as Hs.
  fold (getUTCFullYear t) in Hs.
  assert (Hday : DayFromYear 1000 <= t / msPerDay < DayFromYear 10000).
  { unfold msPerDay in *. split.
    - apply Z.div_le_lower_bound; lia.
    - apply Z.div_lt_upper_bound; lia. }
  split.
  - destruct (Z_lt_le_dec (getUTCFullYear t) 1000) as [Hlt|]; [|lia].
    pose proof (DayFromYear_le (getUTCFullYear t + 1) 1000 ltac:(lia)). lia.
  - destruct (Z_lt_le_dec 9999 (getUTCFullYear t)) as [Hgt|]; [|lia].
    pose proof (DayFromYear_le 10000 (getUTCFullYear t) ltac:(lia)). lia.
Qed.

(** The time fields of a time value built from a time of day. *)
Lemma time_fields (day h mi sec ms : Z) :
  0 <= h <= 23 -> 0 <= mi <= 59 -> 0 <= sec <= 59 -> 0 <= ms <= 999 ->
  let t := day * msPerDay + (h * 3600000 + mi * 60000 + sec * 1000 + ms) in
  getUTCHours t = h /\ getUTCMinutes t = mi /\ getUTCSeconds t = sec.
Proof.
  intros Hh Hmi Hsec Hms t. unfold getUTCHours, getUTCMinutes, getUTCSeconds.
  unfold t, msPerDay. repeat split; Z.to_euclidean_division_equations; lia.
Qed.

Lemma iso_parse_cons (y1 y2 y3 y4 m1 m2 d1 d2 : N) (rest : jstring) :
  iso_parse (y1 :: y2 :: y3 :: y4 :: 45%N :: m1 :: m2 :: 45%N :: d1 :: d2 :: rest)
  = match num4 y1 y2 y3 y4, num2 m1 m2, num2 d1 d2, iso_time rest with
    | Some y, Some m, Some d, Some ms =>
        if ((1 <=? m) && (m <=? 12) && (1 <=? d)
            && (d <=? days_in_month m (InLeapYear y)))%bool
        then Some ((DayFromYear y + days_before_month m (InLeapYear y) + d - 1)
                   * msPerDay + ms)
        else None
    | _, _, _, _ => None
    end.
Proof. reflexivity. Qed.

Lemma iso_time_cons (h1 h2 m1 m2 s1 s2 : N) :
  iso_time [84%N; h1; h2; 58%N; m1; m2; 58%N; s1; s2; 90%N]
  = match num2 h1 h2, num2 m1 m2, num2 s1 s2 with
    | Some h, Some mi, Some sec =>
        if ((h <=? 23) && (mi <=? 59) && (sec <=? 59))%bool
        then Some (h * 3600000 + mi * 60000 + sec * 1000)
        else None
    | _, _, _ => None
    end.
Proof. reflexivity. Qed.

Lemma legal_date_time_inv (y m d h mi sec : Z) :
  legal_date_time y m d h mi sec = true ->
  1000 <= y <= 9999 /\ 1 <= m <= 12 /\ 1 <= d <= days_in_month m (InLeapYear y)
  /\ 0 <= h <= 23 /\ 0 <= mi <= 59 /\ 0 <= sec <= 59.
Proof.
  unfold legal_date_time. intros Hl.
  repeat (apply andb_true_iff in Hl as [Hl ?]).
  repeat match goal with
         | Hle : (_ <=? _) = true |- _ => apply Z.leb_le in Hle
         end.
  lia.
Qed.

(** The time value of a legal date and time. *)
Lemma iso_parse_iso_string (y m d h mi sec : Z) :
  legal_date_time y m d h mi sec = true ->
  iso_parse (iso_string y m d h mi sec)
  = Some ((DayFromYear y + days_before_month m (InLeapYear y) + d - 1) * msPerDay
          + (h * 3600000 + mi * 60000 + sec * 1000)).
Proof.
  intros Hl. apply legal_date_time_inv in Hl as (Hy & Hm & Hd & Hh & Hmi & Hsec).
  pose proof (days_in_month_le m (InLeapYear y) (InLeapYear_range y)) as Hd31.
  unfold iso_string, four_digits, two_digits. cbn [app].
  rewrite iso_parse_cons, iso_time_cons.
  rewrite num4_four_digits by lia. rewrite !num2_two_digits by lia.
  replace (1 <=? m) with true by (symmetry; apply Z.leb_le; lia).
  replace (m <=? 12) with true by (symmetry; apply Z.leb_le; lia).
  replace (1 <=? d) with true by (symmetry; apply Z.leb_le; lia).
  replace (d <=? days_in_month m (InLeapYear y)) with true
    by (symmetry; apply Z.leb_le; lia).
  replace (h <=? 23) with true by (symmetry; apply Z.leb_le; lia).
  replace (mi <=? 59) with true by (symmetry; apply Z.leb_le; lia).
  replace (sec <=? 59) with true by (symmetry; apply Z.leb_le; lia).
  reflexivity.
Qed.

Section Headers.

Context {H : Host}.

(** X5.  For a legal date of the years 1000 to 9999 and a time of day,
    the header of the string [YYYY-MM-DDTHH:mm:ssZ] shows the same
    fields: [YYYY-MM-DD HH-mm-ss]. *)
Theorem formatTimestamp_iso_string (y m d h mi sec : Z) :
  legal_date_time y m d h mi sec = true ->
  formatTimestamp (VStr (iso_string y m d h mi sec))
  = Ok (header_string y m d h mi sec).
Proof.
  intros Hl. pose proof (iso_parse_iso_string y m d h mi sec Hl) as Hparse.
  apply legal_date_time_inv in Hl as (Hy & Hm & Hd & Hh & Hmi & Hsec).
  pose proof (days_in_month_le m (InLeapYear y) (InLeapYear_range y)) as Hd31.
  unfold formatTimestamp.
  assert (Hdate : new_Date (VStr (iso_string y m d h mi sec))
                  = Ok (Some ((DayFromYear y + days_before_month m (InLeapYear y) + d - 1)
                              * msPerDay
                              + (h * 3600000 + mi * 60000 + sec * 1000)))).
  { unfold new_Date, Date_parse_string. rewrite Hparse. reflexivity. }
  change (ToBoolean (VStr (iso_string y m d h mi sec))) with true.
  cbv iota. rewrite Hdate. cbn [bind].
  destruct (date_fields y m d (h * 3600000 + mi * 60000 + sec * 1000) Hm Hd
              ltac:(unfold msPerDay; lia)) as (Hyear & Hmonth & Hday).
  cbv zeta in Hyear, Hmonth, Hday.
  destruct (time_fields (DayFromYear y + days_before_month m (InLeapYear y) + d - 1)
              h mi sec 0 Hh Hmi Hsec ltac:(lia)) as (Hhour & Hmin & Hs).
  cbv zeta in Hhour, Hmin, Hs. rewrite Z.add_0_r in Hhour, Hmin, Hs.
  cbv zeta. rewrite Hyear, Hmonth, Hday, Hhour, Hmin, Hs.
  rewrite Z_to_jstring_four_digits by lia.
  rewrite !pad_two_digits by lia.
  reflexivity.
Qed.

End Headers.

Lemma iso_time_nil : iso_time [] = Some 0.
Proof. reflexivity. Qed.

Lemma dateStamp_digits (now : Z) :
  four_digit_year now = true ->
  dateStamp now
  = four_digits (getUTCFullYear now)
    ++ 45%N :: two_digits (getUTCMonth now + 1)
    ++ 45%N :: two_digits (getUTCDate now).
Proof.
  intros Hnow. apply four_digit_year_range in Hnow as Hyear.
  destruct (fields_day now) as (Hm & Hd & _).
  pose proof (days_in_month_le (getUTCMonth now + 1) _
                (InLeapYear_range (getUTCFullYear now))) as Hd31.
  unfold dateStamp. cbv zeta.
  rewrite Z_to_jstring_four_digits by lia. rewrite !pad_two_digits by lia.
  reflexivity.
Qed.

(** X6.  In the years 1000 to 9999, [dateStamp] is ten code units long
    and is the date [YYYY-MM-DD] of its day: read back as a date it is
    midnight UTC of the day of [now]. *)
Theorem dateStamp_parses_back (now : Z) :
  four_digit_year now = true ->
  List.length (dateStamp now) = 10%nat
  /\ iso_parse (dateStamp now) = Some (now / msPerDay * msPerDay).
Proof.
  intros Hnow. rewrite (dateStamp_digits now Hnow).
  apply four_digit_year_range in Hnow as Hyear.
  destruct (fields_day now) as (Hm & Hd & Hday). cbv zeta in Hd, Hday.
  pose proof (days_in_month_le (getUTCMonth now + 1) _
                (InLeapYear_range (getUTCFullYear now))) as Hd31.
  split; [reflexivity|].
  unfold four_digits, two_digits. cbn [app].
  rewrite iso_parse_cons, iso_time_nil.
  rewrite num4_four_digits by lia. rewrite !num2_two_digits by lia.
  replace (1 <=? getUTCMonth now + 1) with true by (symmetry; apply Z.leb_le; lia).
  replace (getUTCMonth now + 1 <=? 12) with true by (symmetry; apply Z.leb_le; lia).
  replace (1 <=? getUTCDate now) with true by (symmetry; apply Z.leb_le; lia).
  replace (getUTCDate now <=? _) with true by (symmetry; apply Z.leb_le; lia).
  cbn [andb]. rewrite Hday, Z.add_0_r. reflexivity.
Qed.

Lemma dateStamp_parses_back_witness :
  List.length (dateStamp 1682949789000) = 10%nat
  /\ iso_parse (dateStamp 1682949789000) = Some (1682949789000 / msPerDay * msPerDay).
Proof. apply dateStamp_parses_back. reflexivity. Defined.

Section HeaderWidth.

Context {H : Host}.

(** X7.  For a date of the years 1000 to 9999 the header has nineteen
    code units, and its first ten are the [dateStamp] of the same
    time. *)
Theorem formatTimestamp_fixed_width (value : value) (t : Z) :
  ToBoolean value = true ->
  new_Date value = Ok (Some t) ->
  four_digit_year t = true ->
  exists title,
    formatTimestamp value = Ok title
    /\ List.length title = 19%nat
    /\ firstn 10 title = dateStamp t.
Proof.
  intros Htrue Hdate Ht. unfold formatTimestamp. rewrite Htrue, Hdate. cbn [bind].
  rewrite (dateStamp_digits t Ht).
  apply four_digit_year_range in Ht as Hyear.
  destruct (fields_day t) as (Hm & Hd & _). cbv zeta in Hd.
  pose proof (days_in_month_le (getUTCMonth t + 1) _
                (InLeapYear_range (getUTCFullYear t))) as Hd31.
  assert (Hh : 0 <= getUTCHours t <= 23)
    by (unfold getUTCHours; pose proof (Z.mod_pos_bound (t / 3600000) 24); lia).
  assert (Hmi : 0 <= getUTCMinutes t <= 59)
    by (unfold getUTCMinutes; pose proof (Z.mod_pos_bound (t / 60000) 60); lia).
  assert (Hs : 0 <= getUTCSeconds t <= 59)
    by (unfold getUTCSeconds; pose proof (Z.mod_pos_bound (t / 1000) 60); lia).
  eexists. split; [reflexivity|]. cbv zeta.
  rewrite Z_to_jstring_four_digits by lia. rewrite !pad_two_digits by lia.
  split; reflexivity.
Qed.

End HeaderWidth.

Lemma formatTimestamp_iso_string_witness :
  formatTimestamp (H := reference_host) (VStr (js "2023-05-01T14:03:09Z"))
  = Ok (js "2023-05-01 14-03-09").
Proof.
  apply (formatTimestamp_iso_string (H := reference_host) 2023 5 1 14 3 9).
  reflexivity.
Defined.

Lemma formatTimestamp_fixed_width_witness :
  exists title,
    formatTimestamp (H := reference_host) (VNum (js "1682949789000")) = Ok title
    /\ List.length title = 19%nat
    /\ firstn 10 title = dateStamp 1682949789000.
Proof.
  apply (formatTimestamp_fixed_width (H := reference_host)); reflexivity.
Defined.

(** ** Sorting and the order of the input *)

Section SortMore.

Context {A : Type}.
Variable key : A -> Z.

(** A list in order is its own sort. *)
Lemma sort_by_sorted_id (l : list A) :
  StronglySorted (key_le key) l -> sort_by key l = l.
Proof.
  induction 1 as [|x l Hs IH Hall]; [reflexivity|].
  simpl. rewrite IH. destruct l as [|y l']; [reflexivity|].
  simpl. inversion Hall as [|? ? Hxy _]; subst. unfold key_le in Hxy.
  replace (key x - key y <=? 0) with true by (symmetry; apply Z.leb_le; lia).
  reflexivity.
Qed.

(** Two lists in order with the same elements, all of different keys,
    are the same list. *)
Lemma sorted_unique (a b : list A) :
  StronglySorted (key_le key) a -> StronglySorted (key_le key) b ->
  Permutation a b -> NoDup (map key a) -> a = b.
Proof.
  intros Ha. revert b. induction Ha as [|x a Hs IH Hall]; intros b Hb Hp Hnd.
  - apply Permutation_nil in Hp. now subst.
  - destruct b as [|y b]; [apply Permutation_sym, Permutation_nil in Hp; discriminate|].
    inversion Hb as [|? ? Hsb Hallb]; subst.
    inversion Hnd as [|? ? Hnotin Hnd']; subst.
    assert (Hxy : x = y).
    { assert (Hx : In x (y :: b)) by (eapply Permutation_in; [exact Hp | now left]).
      assert (Hy : In y (x :: a))
        by (eapply Permutation_in; [apply Permutation_sym; exact Hp | now left]).
      destruct Hx as [Hx | Hx]; [now symmetry|].
      destruct Hy as [Hy | Hy]; [exact Hy|].
      rewrite Forall_forall in Hall, Hallb.
      specialize (Hall y Hy). specialize (Hallb x Hx). unfold key_le in Hall, Hallb.
      exfalso. apply Hnotin. replace (key x) with (key y) by lia.
      now apply in_map. }
    subst y. f_equal. apply IH; [exact Hsb | | exact Hnd'].
    now apply Permutation_cons_inv in Hp.
Qed.

Lemma sort_by_permutation (l l' : list A) :
  Permutation l l' -> NoDup (map key l) -> sort_by key l = sort_by key l'.
Proof.
  intros Hp Hnd. apply sorted_unique; try apply sort_by_sorted.
  - eapply perm_trans; [apply Permutation_sym, sort_by_perm|].
    eapply perm_trans; [exact Hp | apply sort_by_perm].
  - eapply Permutation_NoDup; [|exact Hnd].
    apply Permutation_map, sort_by_perm.
Qed.

End SortMore.

Lemma distinct_NoDup (l : list Z) : distinct l = true -> NoDup l.
Proof.
  induction l as [|x l IH]; simpl; intros Hd; [constructor|].
  apply andb_true_iff in Hd as [Hx Hd]. constructor; [|now apply IH].
  intros Hin. apply negb_true_iff in Hx.
  assert (Hex : existsb (Z.eqb x) l = true).
  { apply existsb_exists. exists x. split; [exact Hin | apply Z.eqb_refl]. }
  congruence.
Qed.

Section SortEntriesMore.

Context {H : Host}.

Lemma dates_convert_ok (entries : list value) :
  forallb dates_convert entries = true ->
  Forall (fun x => exists t, parseDate x = Ok t) entries.
Proof.
  intros Hall. rewrite forallb_forall in Hall. apply Forall_forall.
  intros x Hx. specialize (Hall x Hx). unfold dates_convert in Hall.
  destruct (parseDate x) as [t|e]; [now exists t | discriminate].
Qed.

(** X9.  Sorting is idempotent: the sort of a sorted list of entries is
    that list. *)
Theorem sortEntries_idempotent (entries sorted : list value) :
  sortEntries entries = Ok sorted -> sortEntries sorted = Ok sorted.
Proof.
  intros Hs. destruct (sortEntries_ok _ _ Hs) as [[_ ->] | [Hall ->]]; [exact Hs|].
  rewrite sortEntries_by_instant.
  - f_equal. apply sort_by_sorted_id, sort_by_sorted.
  - eapply Permutation_Forall; [apply sort_by_perm | exact Hall].
Qed.

(** X8.  When the dates of all entries convert and no two entries have
    the same instant, the order of the entries in the document does not
    matter: every permutation of them sorts and renders the same. *)
Theorem toMarkdown_order_independent (entries entries' : list value) :
  Permutation entries entries' ->
  forallb dates_convert entries = true ->
  distinct (map instant entries) = true ->
  sortEntries entries' = sortEntries entries
  /\ toMarkdown entries' = toMarkdown entries.
Proof.
  intros Hp Hall Hd.
  apply dates_convert_ok in Hall. apply distinct_NoDup in Hd.
  assert (Hall' : Forall (fun x => exists t, parseDate x = Ok t) entries')
    by (eapply Permutation_Forall; [exact Hp | exact Hall]).
  assert (Hsort : sortEntries entries' = sortEntries entries).
  { rewrite !sortEntries_by_instant by assumption. f_equal.
    symmetry. now apply sort_by_permutation. }
  split; [exact Hsort|]. unfold toMarkdown. now rewrite Hsort.
Qed.

End SortEntriesMore.

Lemma sortEntries_idempotent_witness :
  sortEntries (H := reference_host) [entry_1969; entry_undated; entry_2023]
  = Ok [entry_1969; entry_undated; entry_2023].
Proof.
  apply (sortEntries_idempotent (H := reference_host)
           [entry_2023; entry_undated; entry_1969]).
  vm_compute. reflexivity.
Defined.

Lemma toMarkdown_order_independent_witness :
  sortEntries (H := reference_host) [entry_undated; entry_2023; entry_1969]
  = sortEntries (H := reference_host) [entry_2023; entry_undated; entry_1969]
  /\ toMarkdown (H := reference_host) [entry_undated; entry_2023; entry_1969]
     = toMarkdown (H := reference_host) [entry_2023; entry_undated; entry_1969].
Proof.
  apply (toMarkdown_order_independent (H := reference_host)).
  - apply perm_swap.
  - vm_compute. reflexivity.
  - vm_compute. reflexivity.
Defined.

(** ** Blocks *)

Section Blocks.

Context {H : Host}.

(** A block is the header line, an empty line and the body: trimming
    it removes nothing. *)
Lemma renderEntry_block (entry : value) (block : jstring) :
  renderEntry entry = Ok block ->
  exists title,
    formatTimestamp (or_else (get entry (js "creationDate"))
                             (get entry (js "modifiedDate"))) = Ok title
    /\ block = js "# " ++ title ++ [10; 10]%N ++ getEntryText entry.
Proof.
  unfold renderEntry, member, or_else.
  destruct (is_nullish entry); simpl; [discriminate|].
  destruct (ToBoolean (get entry (js "creationDate"))); simpl.
  - destruct (formatTimestamp (get entry (js "creationDate"))) as [title|e];
      simpl; [|discriminate].
    intros [= <-]. exists title. split; [reflexivity|].
    destruct (getEntryText_ends entry) as (q & d & -> & Hd).
    pose proof (trim_hash_ends (32%N :: title ++ [10; 10]%N ++ q) d Hd) as Ht.
    replace ((32%N :: title ++ [10; 10]%N ++ q) ++ [d])
      with (32%N :: title ++ 10%N :: 10%N :: q ++ [d]) in Ht
      by (simpl; rewrite <- app_assoc; reflexivity).
    exact Ht.
  - destruct (formatTimestamp (get entry (js "modifiedDate"))) as [title|e];
      simpl; [|discriminate].
    intros [= <-]. exists title. split; [reflexivity|].
    destruct (getEntryText_ends entry) as (q & d & -> & Hd).
    pose proof (trim_hash_ends (32%N :: title ++ [10; 10]%N ++ q) d Hd) as Ht.
    replace ((32%N :: title ++ [10; 10]%N ++ q) ++ [d])
      with (32%N :: title ++ 10%N :: 10%N :: q ++ [d]) in Ht
      by (simpl; rewrite <- app_assoc; reflexivity).
    exact Ht.
Qed.

(** X4.  A rendered block is exactly the number sign, a space, the
    header, an empty line and the body: the [trim] of line 172 removes
    nothing.  The header is that of [creationDate], or of
    [modifiedDate] when [creationDate] is absent or empty. *)
Theorem renderEntry_layout (entry : value) (block : jstring) :
  renderEntry entry = Ok block ->
  exists title,
    formatTimestamp (or_else (get entry (js "creationDate"))
                             (get entry (js "modifiedDate"))) = Ok title
    /\ block = js "# " ++ title ++ [10; 10]%N ++ getEntryText entry.
Proof. exact (renderEntry_block entry block). Qed.

End Blocks.

Lemma renderEntry_layout_witness :
  exists title,
    formatTimestamp (H := reference_host)
      (or_else (H := reference_host)
         (get entry_2023 (js "creationDate")) (get entry_2023 (js "modifiedDate")))
    = Ok title
    /\ js "# 2023-05-01 14-03-09" ++ [10; 10]%N ++ js "First"
       = js "# " ++ title ++ [10; 10]%N ++ getEntryText entry_2023.
Proof.
  apply (renderEntry_layout (H := reference_host) entry_2023).
  vm_compute. reflexivity.
Defined.

Lemma cleanupText_twice_differs_witness :
  cleanupText (cleanupText (js "C:\\.config")) <> cleanupText (js "C:\\.config").
Proof. apply cleanupText_twice_differs. reflexivity. Defined.

Lemma toMarkdown_returns_witness :
  exists sections,
    List.length sections = 3%nat
    /\ Forall starts_with_hash sections
    /\ toMarkdown (H := reference_host) [entry_2023; entry_undated; VNum (js "5")]
       = Ok (join separator sections).
Proof.
  apply (toMarkdown_returns (H := reference_host)
           [entry_2023; entry_undated; VNum (js "5")]).
  reflexivity.
Defined.

(** ** Conversion attempts *)

Section Attempts.

Context {H : Host}.

Lemma formatTimestamp_falsy (v : value) :
  ToBoolean v = false -> formatTimestamp v = Ok (js "1970-01-01 00-00-00").
Proof. intros Hv. unfold formatTimestamp. rewrite Hv. reflexivity. Qed.

(** The entries of a document that rendered are not null, and the
    stamp of their [creationDate] alone formats as well. *)
Lemma rendered_creationDate (entry : value) (block : jstring) :
  renderEntry entry = Ok block ->
  exists stamp, formatTimestamp (opt_member entry (js "creationDate")) = Ok stamp.
Proof.
  unfold renderEntry, member, opt_member.
  destruct (is_nullish entry); simpl; [discriminate|].
  destruct (ToBoolean (get entry (js "creationDate"))) eqn:Hc; simpl.
  - destruct (formatTimestamp (get entry (js "creationDate"))) as [title|e];
      simpl; [|discriminate].
    intros _. now exists title.
  - intros _. rewrite (formatTimestamp_falsy _ Hc). eexists; reflexivity.
Qed.

Lemma opt_member_undefined (k : jstring) : opt_member VUndefined k = VUndefined.
Proof. reflexivity. Qed.

Lemma toMarkdown_creationDates (entries sorted : list value) (markdown : jstring) :
  toMarkdown entries = Ok markdown -> sortEntries entries = Ok sorted ->
  forall entry, In entry (VUndefined :: sorted) ->
    exists stamp, formatTimestamp (opt_member entry (js "creationDate")) = Ok stamp.
Proof.
  intros Hmd Hs entry [<- | Hin].
  - rewrite opt_member_undefined, formatTimestamp_falsy by reflexivity.
    eexists; reflexivity.
  - apply toMarkdown_sections in Hmd as (sorted' & sections & Hs' & Hr & _).
    rewrite Hs in Hs'. injection Hs' as <-.
    clear Hs. induction Hr as [|e b l l' Hb _ IH]; [contradiction|].
    destruct Hin as [<- | Hin]; [now apply rendered_creationDate with (block := b)|].
    now apply IH.
Qed.

Lemma nth_In_default {A : Type} (l : list A) (d : A) (n : nat) :
  In (nth n l d) (d :: l).
Proof.
  destruct (Nat.lt_ge_cases n (List.length l)) as [Hlt | Hge].
  - right. now apply nth_In.
  - left. symmetry. now apply nth_overflow.
Qed.

Lemma last_In_default {A : Type} (l : list A) (d : A) :
  In (List.last l d) (d :: l).
Proof.
  induction l as [|a l IH]; [now left|].
  destruct l as [|b l']; [right; now left|].
  change (List.last (a :: b :: l') d) with (List.last (b :: l') d).
  destruct IH as [IH | IH]; [now left | right; now right].
Qed.

(** The [try] block either throws before anything is stored, leaving
    the session as [setProcessing] made it, or completes. *)
Lemma processFile_try_cases (isJson : bool) (file : File) :
  (exists e, forall s, processFile_try isJson file s = (setProcessing s, Throw e))
  \/ (exists journal markdown sorted first last,
         (if isJson then JSON_parse (file_text file) else parseJournalFromZip file)
         = Ok journal
         /\ is_nil (entries_of journal) = false
         /\ toMarkdown (entries_of journal) = Ok markdown
         /\ sortEntries (entries_of journal) = Ok sorted
         /\ formatTimestamp (opt_member (nth 0 sorted VUndefined) (js "creationDate"))
            = Ok first
         /\ formatTimestamp (opt_member (List.last sorted VUndefined) (js "creationDate"))
            = Ok last
         /\ forall s, processFile_try isJson file s
                      = (converted markdown (List.length (entries_of journal))
                                   first last s, Ok tt)).
Proof.
  destruct (if isJson then JSON_parse (file_text file) else parseJournalFromZip file)
    as [journal|e] eqn:Hj.
  2:{ left. exists e. intros s. unfold processFile_try, seq, exec, eval.
      now rewrite Hj. }
  destruct (is_nil (entries_of journal)) eqn:Hnil.
  { left. eexists. intros s. unfold processFile_try, seq, exec, eval.
    rewrite Hj, Hnil. reflexivity. }
  destruct (toMarkdown (entries_of journal)) as [markdown|e] eqn:Hmd.
  2:{ left. exists e. intros s. unfold processFile_try, seq, exec, eval.
      now rewrite Hj, Hnil, Hmd. }
  pose proof Hmd as Hsec.
  apply toMarkdown_sections in Hsec as (sorted & sections & Hs & _ & _).
  destruct (toMarkdown_creationDates _ _ _ Hmd Hs _ (nth_In_default sorted VUndefined 0))
    as [first Hfirst].
  destruct (toMarkdown_creationDates _ _ _ Hmd Hs _ (last_In_default sorted VUndefined))
    as [last Hlast].
  right. exists journal, markdown, sorted, first, last.
  repeat (split; [assumption || reflexivity|]).
  intros s. unfold processFile_try, seq, exec, eval.
  rewrite Hj, Hnil, Hmd, (toMarkdown_not_blank _ _ Hnil Hmd), Hs, Hfirst, Hlast.
  reflexivity.
Qed.

Lemma not_blank_not_empty (s : jstring) : is_nil (trim s) = false -> is_nil s = false.
Proof. now destruct s. Qed.

(** X10.  [processFile] overwrites the whole session: what it leaves
    does not depend on the session before. *)
Theorem processFile_forgets_session (file : File) (s1 s2 : session) :
  processFile file s1 = processFile file s2.
Proof.
  destruct (isJson file || isZip file)%bool eqn:Hs.
  - rewrite !(processFile_supported file _ Hs).
    destruct (processFile_try_cases (isJson file) file)
      as [[e He] | (journal & markdown & sorted & first & last & _ & _ & _ & _ & _ & _ & Hok)].
    + now rewrite !He.
    + now rewrite !Hok.
  - now rewrite !(processFile_unsupported file _ Hs).
Qed.

(** After an attempt the page agrees with the stored output. *)
Lemma processFile_keeps_consistent (file : File) (s : session) :
  consistent (processFile file s).
Proof.
  unfold consistent.
  destruct (isJson file || isZip file)%bool eqn:Hs.
  - rewrite (processFile_supported file _ Hs).
    destruct (processFile_try_cases (isJson file) file)
      as [[e He] | (journal & markdown & sorted & first & last
                    & _ & Hnil & Hmd & _ & _ & _ & Hok)].
    + rewrite He. repeat split.
    + rewrite Hok. cbn.
      rewrite (not_blank_not_empty _ (toMarkdown_not_blank _ _ Hnil Hmd)).
      repeat split.
  - rewrite (processFile_unsupported file _ Hs). repeat split.
Qed.

(** What a successful attempt leaves. *)
Lemma processFile_success_facts (file : File) (s : session) :
  attempt_fails file s = false ->
  exists journal markdown sections,
    (if isJson file then JSON_parse (file_text file) else parseJournalFromZip file)
    = Ok journal
    /\ toMarkdown (entries_of journal) = Ok markdown
    /\ markdown = join separator sections
    /\ List.length sections = List.length (entries_of journal)
    /\ (0 < List.length sections)%nat
    /\ currentMarkdown (processFile file s) = markdown
    /\ statusText_className (processFile file s) = js "status-text success"
    /\ statusText_textContent (processFile file s)
       = js "Done. " ++ Z_to_jstring (Z.of_nat (List.length sections))
         ++ js " entries converted.".
Proof.
  unfold attempt_fails. intros Hfail. apply orb_false_iff in Hfail as [Hs Hthrow].
  apply negb_false_iff in Hs.
  rewrite (processFile_supported file _ Hs).
  destruct (processFile_try_cases (isJson file) file)
    as [[e He] | (journal & markdown & sorted & first & last
                  & Hj & Hnil & Hmd & _ & _ & _ & Hok)].
  - rewrite He in Hthrow. discriminate.
  - rewrite Hok.
    destruct (toMarkdown_count _ _ Hmd) as (sections & Hlen & _ & Heq).
    exists journal, markdown, sections.
    repeat (split; [assumption|]).
    split; [destruct (entries_of journal); [discriminate | simpl in *; lia]|].
    split; [reflexivity|]. split; [reflexivity|].
    cbn. now rewrite Hlen.
Qed.


Lemma jstring_eqb_refl (a : jstring) : jstring_eqb a a = true.
Proof. unfold jstring_eqb. now destruct (list_eq_dec N.eq_dec a a). Qed.

Lemma journalFileName_In (zip : JSZip) (fileName : jstring) :
  journalFileName zip = Ok fileName -> In fileName (candidates zip).
Proof.
  unfold journalFileName. destruct (is_nil (candidates zip)); [discriminate|].
  rewrite sort_by_length. unfold bind.
  destruct (sort_by length_key (candidates zip)) as [|first rest] eqn:Hs;
    [discriminate|].
  intros [= <-]. eapply Permutation_in.
  - apply Permutation_sym, (sort_by_perm length_key).
  - rewrite Hs. now left.
Qed.

(** X13.  [parseJournalFromZip] returns the parse of the text of the
    stream it selected, or throws for one of three reasons: the archive
    or the stream cannot be read, no name qualifies (and only then
    "No Journal.json found"), or the text is no JSON.  It never throws a
    [TypeError]: the selected name is a stream of the archive. *)
Theorem parseJournalFromZip_outcomes (file : File) :
  match parseJournalFromZip file with
  | Ok journal =>
      exists zip fileName text,
        file_zip file = Some zip
        /\ journalFileName zip = Ok fileName
        /\ In (fileName, Some text) zip
        /\ JSON_parse text = Ok journal
  | Throw e =>
      (e = ArchiveError \/ e = DocumentNotFound \/ e = SyntaxError)
      /\ (e = DocumentNotFound ->
          exists zip, file_zip file = Some zip /\ candidates zip = [])
  end.
Proof.
  unfold parseJournalFromZip.
  destruct (file_zip file) as [zip|]; cbn [of_promise bind].
  2:{ split; [now left | discriminate]. }
  destruct (journalFileName zip) as [fileName|e] eqn:Hn; cbn [bind].
  - destruct (find (fun kv => jstring_eqb (fst kv) fileName) zip)
      as [[k content]|] eqn:Hf.
    + apply find_some in Hf as [Hin Hk]. apply jstring_eqb_eq in Hk.
      cbn [fst] in Hk. subst k.
      destruct content as [text|]; cbn [of_promise bind].
      * destruct (JSON_parse text) as [journal|e] eqn:Hp.
        -- exists zip, fileName, text. now repeat split.
        -- apply JSON_parse_throw in Hp as ->. split; [tauto | discriminate].
      * split; [tauto | discriminate].
    + exfalso. apply journalFileName_In in Hn. unfold candidates in Hn.
      apply filter_In in Hn as [Hn _]. apply in_map_iff in Hn as ([k c] & Hk & Hin).
      cbn [fst] in Hk. subst k.
      pose proof (find_none _ _ Hf _ Hin) as Hnone. cbn [fst] in Hnone.
      rewrite jstring_eqb_refl in Hnone. discriminate.
  - unfold journalFileName in Hn.
    destruct (candidates zip) as [|c cs] eqn:Hc; cbn [is_nil] in Hn.
    + injection Hn as <-. split; [tauto|]. intros _. now exists zip.
    + rewrite sort_by_length in Hn. unfold bind in Hn.
      destruct (sort_by length_key (c :: cs)) as [|first rest] eqn:Hs; [|discriminate].
      exfalso. pose proof (sort_by_perm length_key (c :: cs)) as Hp.
      rewrite Hs in Hp. now apply Permutation_sym, Permutation_nil in Hp.
Qed.

Lemma on_files_session (file : File) (rest : list File) (p : page) :
  page_session (on_files (file :: rest) p) = processFile file (page_session p).
Proof. reflexivity. Qed.

Lemma processFile_failure (file : File) (s : session) :
  attempt_fails file s = true -> currentMarkdown (processFile file s) = [].
Proof.
  unfold attempt_fails. intros Hfail.
  destruct (isJson file || isZip file)%bool eqn:Hs.
  - rewrite (processFile_supported file _ Hs). simpl in Hfail.
    destruct (processFile_try (isJson file) file s) as [s' [u|e]];
      [discriminate | reflexivity].
  - now rewrite (processFile_unsupported file _ Hs).
Qed.

(** X15.  After an attempt that failed, a click on the copy button or
    on the download button changes nothing. *)
Theorem failed_attempt_disarms_buttons
    (file : File) (rest : list File) (p : page) (granted : bool) (now : Z) :
  attempt_fails file (page_session p) = true ->
  copy_click granted (on_files (file :: rest) p) = on_files (file :: rest) p
  /\ download_click now (on_files (file :: rest) p) = on_files (file :: rest) p.
Proof.
  intros Hfail. apply processFile_failure in Hfail.
  unfold copy_click, download_click.
  rewrite on_files_session, Hfail. split; reflexivity.
Qed.

(** X16.  After an attempt that succeeded, the copy button puts the
    rendered document on the clipboard, and the download button offers
    it under the name [day-one-export-] with the date stamp and [.md]. *)
Theorem converted_output_is_offered
    (file : File) (rest : list File) (p : page) (now : Z) :
  attempt_fails file (page_session p) = false ->
  exists journal markdown,
    (if isJson file then JSON_parse (file_text file) else parseJournalFromZip file)
    = Ok journal
    /\ toMarkdown (entries_of journal) = Ok markdown
    /\ clipboard (copy_click true (on_files (file :: rest) p)) = markdown
    /\ downloads (download_click now (on_files (file :: rest) p))
       = (js "day-one-export-" ++ dateStamp now ++ js ".md", markdown) :: downloads p.
Proof.
  intros Hok.
  destruct (processFile_success_facts file (page_session p) Hok)
    as (journal & markdown & sections & Hj & Hmd & Heq & Hlen & Hpos & Hcur & _).
  exists journal, markdown. split; [exact Hj|]. split; [exact Hmd|].
  assert (Hne : is_nil markdown = false).
  { apply not_blank_not_empty. eapply toMarkdown_not_blank; [|exact Hmd].
    destruct (entries_of journal); [simpl in *; lia | reflexivity]. }
  unfold copy_click, download_click. rewrite on_files_session, Hcur, Hne.
  split; reflexivity.
Qed.

(** X19.  The agreement of the page with the stored output is kept by
    every series of events (files dropped or chosen, clicks on copy and
    download) handled one after another. *)
Theorem page_stays_consistent (events : list event) (p : page) :
  consistent (page_session p) ->
  consistent (page_session (handle_all events p)).
Proof.
  unfold handle_all. revert p. induction events as [|e events IH]; intros p Hp;
    [exact Hp|].
  simpl. apply IH. destruct e as [files | granted | now]; simpl.
  - destruct files as [|file rest]; [exact Hp|]. apply processFile_keeps_consistent.
  - unfold copy_click. destruct (is_nil (currentMarkdown (page_session p)));
      [exact Hp|]. destruct granted; exact Hp.
  - unfold download_click. destruct (is_nil (currentMarkdown (page_session p)));
      exact Hp.
Qed.


(** X12.  After every attempt, from any session, the preview holds the
    stored output and both buttons are enabled exactly when that
    output is not empty. *)
Theorem processFile_consistent (file : File) (s : session) :
  consistent (processFile file s).
Proof. exact (processFile_keeps_consistent file s). Qed.

(** X11.  An attempt that does not fail stores the rendering of the
    entries of the document, which is one block for each entry joined
    by the separator, one block at least, and reports their number as
    a success. *)
Theorem processFile_success (file : File) (s : session) :
  attempt_fails file s = false ->
  exists journal markdown sections,
    (if isJson file then JSON_parse (file_text file) else parseJournalFromZip file)
    = Ok journal
    /\ toMarkdown (entries_of journal) = Ok markdown
    /\ markdown = join separator sections
    /\ List.length sections = List.length (entries_of journal)
    /\ (0 < List.length sections)%nat
    /\ currentMarkdown (processFile file s) = markdown
    /\ statusText_className (processFile file s) = js "status-text success"
    /\ statusText_textContent (processFile file s)
       = js "Done. " ++ Z_to_jstring (Z.of_nat (List.length sections))
         ++ js " entries converted.".
Proof. exact (processFile_success_facts file s). Qed.

Lemma startsWith_app (p r : jstring) : startsWith (p ++ r) p = true.
Proof.
  induction p as [|a p IH]; simpl; [now destruct r|].
  now rewrite N.eqb_refl, IH.
Qed.

Lemma Forall2_last {A B : Type} (R : A -> B -> Prop) (l : list A) (l' : list B)
    (d : A) (d' : B) :
  Forall2 R l l' -> l <> [] -> R (List.last l d) (List.last l' d').
Proof.
  induction 1 as [|a b l l' Hab Hr IH]; intros Hne; [contradiction|].
  destruct Hr as [|a2 b2 l2 l2' Hab2 Hr2]; [exact Hab|].
  change (R (List.last (a2 :: l2) d) (List.last (b2 :: l2') d')).
  apply IH. discriminate.
Qed.

(** The block of an entry with a [creationDate] starts with the header
    of that date. *)
Lemma renderEntry_creationDate (entry : value) (block : jstring) :
  has_creationDate entry = true -> renderEntry entry = Ok block ->
  exists stamp,
    formatTimestamp (opt_member entry (js "creationDate")) = Ok stamp
    /\ startsWith block (js "# " ++ stamp) = true.
Proof.
  intros Hc Hb. destruct (renderEntry_block entry block Hb) as (title & Ht & ->).
  unfold has_creationDate, opt_member in *. unfold renderEntry, member in Hb.
  destruct (is_nullish entry); [discriminate|].
  unfold or_else in Ht. rewrite Hc in Ht.
  exists title. split; [exact Ht|].
  rewrite app_assoc. apply startsWith_app.
Qed.

(** X17.  When every entry has a [creationDate], the range in the note
    names the headers of the first and of the last block of the
    document. *)
Theorem range_names_headers (file : File) (s : session) (journal : value) :
  attempt_fails file s = false ->
  (if isJson file then JSON_parse (file_text file) else parseJournalFromZip file)
  = Ok journal ->
  forallb has_creationDate (entries_of journal) = true ->
  exists first last sections,
    currentMarkdown (processFile file s) = join separator sections
    /\ meta_textContent (processFile file s)
       = js "Range: " ++ first ++ js " to " ++ last
         ++ js " (UTC). Processed locally in your browser."
    /\ startsWith (hd [] sections) (js "# " ++ first) = true
    /\ startsWith (List.last sections []) (js "# " ++ last) = true.
Proof.
  unfold attempt_fails. intros Hfail Hj Hall.
  apply orb_false_iff in Hfail as [Hs Hthrow]. apply negb_false_iff in Hs.
  rewrite (processFile_supported file _ Hs).
  destruct (processFile_try_cases (isJson file) file)
    as [[e He] | (journal' & markdown & sorted & first & last
                  & Hj' & Hnil & Hmd & Hsort & Hfirst & Hlast & Hok)].
  { rewrite He in Hthrow. discriminate. }
  rewrite Hj in Hj'. injection Hj' as <-. rewrite Hok.
  destruct (toMarkdown_sections _ _ Hmd) as (sorted' & sections & Hsort' & Hr & Heq).
  rewrite Hsort in Hsort'. injection Hsort' as <-.
  assert (Hall' : forall e, In e sorted -> has_creationDate e = true).
  { rewrite forallb_forall in Hall. intros e He. apply Hall.
    eapply Permutation_in; [|exact He].
    apply Permutation_sym. now apply Array_sort_perm with (comparefn := compareEntries). }
  assert (Hne : sorted <> []).
  { intros ->. apply Array_sort_perm in Hsort.
    apply Permutation_sym, Permutation_nil in Hsort.
    now rewrite Hsort in Hnil. }
  exists first, last, sections. split; [exact Heq|]. split; [reflexivity|].
  split.
  - destruct Hr as [|e b l l' Hb _]; [contradiction|]. cbn [hd].
    destruct (renderEntry_creationDate e b (Hall' e (or_introl eq_refl)) Hb)
      as (stamp & Hstamp & Hstarts).
    cbn [nth] in Hfirst. rewrite Hstamp in Hfirst. now injection Hfirst as <-.
  - pose proof (Forall2_last _ sorted sections VUndefined [] Hr Hne) as Hb.
    cbv beta in Hb.
    assert (Hin : In (List.last sorted VUndefined) sorted).
    { destruct (last_In_default sorted VUndefined) as [Hd | Hin]; [|exact Hin].
      destruct sorted as [|a l]; [contradiction|].
      rewrite Hd. apply (@exists_last _ (a :: l)) in Hne as (l0 & x & Hx).
      rewrite Hx, last_last. apply in_or_app. right. now left. }
    destruct (renderEntry_creationDate _ _ (Hall' _ Hin) Hb)
      as (stamp & Hstamp & Hstarts).
    rewrite Hstamp in Hlast. now injection Hlast as <-.
Qed.

(** X18.  The range is taken from [creationDate] alone: when no entry
    has one, it reads from 1970-01-01 00-00-00 to 1970-01-01 00-00-00,
    whatever the [modifiedDate]s shown in the headers. *)
Theorem range_ignores_modifiedDate (file : File) (s : session) (journal : value) :
  attempt_fails file s = false ->
  (if isJson file then JSON_parse (file_text file) else parseJournalFromZip file)
  = Ok journal ->
  forallb (fun entry => negb (has_creationDate entry)) (entries_of journal) = true ->
  meta_textContent (processFile file s)
  = js "Range: 1970-01-01 00-00-00 to 1970-01-01 00-00-00 (UTC). Processed locally in your browser.".
Proof.
  unfold attempt_fails. intros Hfail Hj Hall.
  apply orb_false_iff in Hfail as [Hs Hthrow]. apply negb_false_iff in Hs.
  rewrite (processFile_supported file _ Hs).
  destruct (processFile_try_cases (isJson file) file)
    as [[e He] | (journal' & markdown & sorted & first & last
                  & Hj' & Hnil & Hmd & Hsort & Hfirst & Hlast & Hok)].
  { rewrite He in Hthrow. discriminate. }
  rewrite Hj in Hj'. injection Hj' as <-. rewrite Hok.
  assert (Hall' : forall e, In e (VUndefined :: sorted) ->
                            ToBoolean (opt_member e (js "creationDate")) = false).
  { rewrite forallb_forall in Hall. intros e [<- | He]; [reflexivity|].
    apply negb_true_iff. apply (Hall e).
    eapply Permutation_in; [|exact He].
    apply Permutation_sym. now apply Array_sort_perm with (comparefn := compareEntries). }
  rewrite (formatTimestamp_falsy _ (Hall' _ (nth_In_default sorted VUndefined 0)))
    in Hfirst.
  rewrite (formatTimestamp_falsy _ (Hall' _ (last_In_default sorted VUndefined)))
    in Hlast.
  injection Hfirst as <-. injection Hlast as <-. reflexivity.
Qed.

End Attempts.

Lemma processFile_success_witness :
  exists journal markdown sections,
    (if isJson file_journal then JSON_parse (file_text file_journal)
     else parseJournalFromZip file_journal) = Ok journal
    /\ toMarkdown (H := reference_host) (entries_of journal) = Ok markdown
    /\ markdown = join separator sections
    /\ List.length sections = List.length (entries_of journal)
    /\ (0 < List.length sections)%nat
    /\ currentMarkdown (processFile (H := reference_host) file_journal session_with_output)
       = markdown
    /\ statusText_className
         (processFile (H := reference_host) file_journal session_with_output)
       = js "status-text success"
    /\ statusText_textContent
         (processFile (H := reference_host) file_journal session_with_output)
       = js "Done. " ++ Z_to_jstring (Z.of_nat (List.length sections))
         ++ js " entries converted.".
Proof.
  apply (processFile_success (H := reference_host) file_journal session_with_output).
  vm_compute. reflexivity.
Defined.

Lemma failed_attempt_disarms_buttons_witness :
  copy_click true (on_files (H := reference_host) [file_malformed] page_with_output)
  = on_files (H := reference_host) [file_malformed] page_with_output
  /\ download_click 1682949789000
       (on_files (H := reference_host) [file_malformed] page_with_output)
     = on_files (H := reference_host) [file_malformed] page_with_output.
Proof.
  apply (failed_attempt_disarms_buttons (H := reference_host)).
  vm_compute. reflexivity.
Defined.

Lemma converted_output_is_offered_witness :
  exists journal markdown,
    (if isJson file_archive then JSON_parse (file_text file_archive)
     else parseJournalFromZip file_archive) = Ok journal
    /\ toMarkdown (H := reference_host) (entries_of journal) = Ok markdown
    /\ clipboard (copy_click true
                    (on_files (H := reference_host) [file_archive] page_with_output))
       = markdown
    /\ downloads (download_click 1682949789000
                    (on_files (H := reference_host) [file_archive] page_with_output))
       = (js "day-one-export-" ++ dateStamp 1682949789000 ++ js ".md", markdown)
         :: downloads page_with_output.
Proof.
  apply (converted_output_is_offered (H := reference_host)).
  vm_compute. reflexivity.
Defined.

Lemma range_names_headers_witness :
  exists first last sections,
    currentMarkdown (processFile (H := reference_host) file_journal session_with_output)
    = join separator sections
    /\ meta_textContent
         (processFile (H := reference_host) file_journal session_with_output)
       = js "Range: " ++ first ++ js " to " ++ last
         ++ js " (UTC). Processed locally in your browser."
    /\ startsWith (hd [] sections) (js "# " ++ first) = true
    /\ startsWith (List.last sections []) (js "# " ++ last) = true.
Proof.
  eapply (range_names_headers (H := reference_host) file_journal session_with_output).
  - vm_compute. reflexivity.
  - vm_compute. reflexivity.
  - vm_compute. reflexivity.
Defined.

Lemma range_ignores_modifiedDate_witness :
  meta_textContent
    (processFile (H := reference_host) file_modified_only session_with_output)
  = js "Range: 1970-01-01 00-00-00 to 1970-01-01 00-00-00 (UTC). Processed locally in your browser.".
Proof.
  eapply (range_ignores_modifiedDate (H := reference_host)
            file_modified_only session_with_output).
  - vm_compute. reflexivity.
  - vm_compute. reflexivity.
  - vm_compute. reflexivity.
Defined.

Lemma page_stays_consistent_witness :
  consistent
    (page_session
       (handle_all (H := reference_host)
          [Files [file_journal]; CopyClick true; Files [file_malformed];
           DownloadClick 1682949789000; Files []; Files [file_archive]]
          page_with_output)).
Proof.
  apply (page_stays_consistent (H := reference_host)).
  repeat split.
Defined.

Example modified_only_header :
  currentMarkdown (processFile (H := reference_host) file_modified_only session_with_output)
  = js "# 2023-05-01 14-03-09" ++ [10; 10]%N ++ js "Edited".
Proof. vm_compute. reflexivity. Qed.

(** ** The instant shown and the instant sorted by *)

Section Instants.

Context {H : Host}.

Lemma formatTimestamp_string (s : jstring) :
  formatTimestamp (VStr s) = Ok (format_time (instant_or_epoch (Date_parse_string s))).
Proof.
  unfold formatTimestamp. destruct s as [|c s]; [reflexivity|].
  change (ToBoolean (VStr (c :: s))) with true. cbv iota.
  change (new_Date (VStr (c :: s))) with (Ok (Date_parse_string (c :: s))).
  cbn [bind]. destruct (Date_parse_string (c :: s)); reflexivity.
Qed.

Lemma parseDate_string (s : jstring) (entry : value) :
  or_else (or_else (opt_member entry (js "creationDate"))
                   (opt_member entry (js "modifiedDate"))) (VStr []) = VStr s ->
  parseDate entry = Ok (instant_or_epoch (Date_parse_string s)).
Proof. unfold parseDate. intros ->. reflexivity. Qed.

(** X20.  For an entry whose dates are strings or absent, the header
    shows the instant the entry is sorted by; a date that does not
    parse shows as the epoch. *)
Theorem header_shows_sort_instant (entry : value) :
  is_nullish entry = false ->
  string_or_absent (get entry (js "creationDate")) = true ->
  string_or_absent (get entry (js "modifiedDate")) = true ->
  exists t,
    parseDate entry = Ok t
    /\ renderEntry entry
       = Ok (js "# " ++ format_time t ++ [10; 10]%N ++ getEntryText entry).
Proof.
  intros Hn Hc Hm.
  assert (Hstamp : exists s,
             or_else (get entry (js "creationDate")) (get entry (js "modifiedDate"))
             = s
             /\ (ToBoolean s = true -> exists str, s = VStr str)
             /\ or_else s (VStr [])
                = VStr (match s with VStr str => str | _ => [] end)).
  { eexists. split; [reflexivity|]. unfold or_else.
    destruct (get entry (js "creationDate")) as [| | | |[|c s]| |]; try discriminate;
      destruct (get entry (js "modifiedDate")) as [| | | |[|c' s']| |];
      try discriminate; simpl; split; try discriminate; try reflexivity;
      intros _; eexists; reflexivity. }
  destruct Hstamp as (stamp & Hstamp & Hstr & Hraw).
  exists (instant_or_epoch
            (Date_parse_string (match stamp with VStr str => str | _ => [] end))).
  split.
  - apply parseDate_string. unfold opt_member. rewrite Hn, Hstamp. exact Hraw.
  - destruct (renderEntry entry) as [block|e] eqn:Hb.
    + destruct (renderEntry_block entry block Hb) as (title & Ht & ->).
      rewrite Hstamp in Ht. f_equal. f_equal. f_equal.
      destruct (ToBoolean stamp) eqn:Htrue.
      * destruct (Hstr eq_refl) as [str ->].
        rewrite formatTimestamp_string in Ht. now injection Ht.
      * rewrite (formatTimestamp_falsy _ Htrue) in Ht. injection Ht as <-.
        destruct stamp as [| | | |[|c s]| |]; try discriminate; reflexivity.
    + exfalso. unfold renderEntry, member in Hb. rewrite Hn in Hb. cbn [bind] in Hb.
      assert (Hfmt : forall v, string_or_absent v = true ->
                               exists title, formatTimestamp v = Ok title).
      { intros v Hv. apply formatTimestamp_primitive.
        destruct v; try discriminate; reflexivity. }
      destruct (ToBoolean (get entry (js "creationDate"))); cbn [bind] in Hb.
      * destruct (Hfmt _ Hc) as [title Ht]. rewrite Ht in Hb. discriminate.
      * destruct (Hfmt _ Hm) as [title Ht]. rewrite Ht in Hb. discriminate.
Qed.

(** X14.  The [try] block throws only before it stores the output: when
    it throws, the session is the one before, with the status set to
    processing. *)
Theorem processFile_try_throws_before_output
    (isJson : bool) (file : File) (s : session) :
  is_throw (snd (processFile_try isJson file s)) = true ->
  fst (processFile_try isJson file s) = setProcessing s.
Proof.
  intros Hthrow.
  destruct (processFile_try_cases isJson file)
    as [[e' He] | (journal & markdown & sorted & first & last
                   & _ & _ & _ & _ & _ & _ & Hok)].
  - now rewrite He.
  - rewrite Hok in Hthrow. discriminate.
Qed.

End Instants.

Lemma header_shows_sort_instant_witness :
  exists t,
    parseDate (H := reference_host) entry_bad_creationDate = Ok t
    /\ renderEntry (H := reference_host) entry_bad_creationDate
       = Ok (js "# " ++ format_time t ++ [10; 10]%N
             ++ getEntryText entry_bad_creationDate).
Proof.
  apply (header_shows_sort_instant (H := reference_host) entry_bad_creationDate);
    reflexivity.
Defined.

Lemma processFile_try_throws_before_output_witness :
  fst (processFile_try (H := reference_host) true file_null_entry session_with_output)
  = setProcessing session_with_output.
Proof.
  apply (processFile_try_throws_before_output (H := reference_host)).
  vm_compute. reflexivity.
Defined.
